(** * Verification model of the Redis policy manager (src/manager/redis/manager_redis.go)

    The manager talks to Redis through single-key commands.  We model a
    manager operation as a program of Redis commands ([prog]): a run executes
    the commands one after the other against a Redis database ([db]); a
    concurrent run interleaves the commands of several programs.  Each Redis
    command is atomic.  Go's [(T, error)] results, and runtime panics, are the
    [outcome] type. *)

From Stdlib Require Import ZArith List Lia Ascii.
From stdpp Require Import base gmap strings list fin_maps.
Import ListNotations.
Local Open Scope char_scope.
Open Scope string_scope.
Open Scope list_scope.

(* ------------------------------------------------------------------------- *)
(** ** Data model *)

(** [ladon.DefaultPolicy]: conditions are passed through as an opaque value. *)
Record Policy := mkPolicy {
  ID : string;
  Description : string;
  Subjects : list string;
  Effect : string;
  Resources : list string;
  Actions : list string;
  Conditions : string
}.

Definition GetID (p : Policy) : string := ID p.
Definition GetSubjects (p : Policy) : list string := Subjects p.
Definition GetResources (p : Policy) : list string := Resources p.

(** The Go error values the manager returns or receives. *)
Inductive err :=
  | ErrPolicyExists      (* redis.ErrPolicyExists *)
  | ErrNotFound          (* ladon.ErrNotFound *)
  | ErrBadConversion     (* redis.ErrBadConversion, wrapped *)
  | RedisNil             (* redis.Nil: key absent *)
  | ErrConn              (* transport-level failure of a Redis call *)
  | redisPolicyExists    (* "Policy exists" of the HSETNX manager *)
  | redisNotFound        (* "Not found" of the HSETNX manager *)
  | ErrJSON              (* an encoding/json error, wrapped *)
  | ErrWrongArgs.        (* "ERR wrong number of arguments" of a bare MGET *)

Inductive outcome (A : Type) :=
  | Ok (a : A)
  | Err (e : err)
  | Panic.
Arguments Ok {A} a.
Arguments Err {A} e.
Arguments Panic {A}.

(** The Redis keyspace: string keys and hash keys, plus whether the server is
    reachable.  When it is not, every command fails with [ErrConn]. *)
Record db := mkDb {
  strs : gmap string string;
  hashes : gmap string (gmap string string);
  down : bool
}.

Definition empty_db : db := mkDb ∅ ∅ false.

(* ------------------------------------------------------------------------- *)
(** ** Redis commands *)

(** Redis glob matching ([stringmatchlen] of util.c, case-sensitive), as
    used by KEYS.  The pattern is read as tokens: [*], [?], a bracket class
    ([^] negates; items are characters, [\]-escaped characters and ranges
    [a-b]; an unterminated class runs to the end of the pattern), and
    literal characters ([\] escapes the next one). *)
Inductive class_item := IChar (c : ascii) | IRange (a b : ascii).
Inductive token := TStar | TAny | TLit (c : ascii) | TClass (neg : bool) (items : list class_item).

Fixpoint tokenize (p : string) {struct p} : list token :=
  match p with
  | EmptyString => []
  | String "*" p' => TStar :: tokenize p'
  | String "?" p' => TAny :: tokenize p'
  | String "[" (String "^" p') => class_items true [] p'
  | String "[" p' => class_items false [] p'
  | String "\" (String c p') => TLit c :: tokenize p'
  | String c p' => TLit c :: tokenize p'
  end
with class_items (neg : bool) (acc : list class_item) (p : string) {struct p} : list token :=
  match p with
  | EmptyString => [TClass neg (rev acc)]
  | String "\" (String c p') => class_items neg (IChar c :: acc) p'
  | String "]" p' => TClass neg (rev acc) :: tokenize p'
  | String a (String "-" (String b p')) => class_items neg (IRange a b :: acc) p'
  | String c p' => class_items neg (IChar c :: acc) p'
  end.

(** Characters compare as C's (signed) [char]. *)
Definition schar (c : ascii) : Z :=
  let n := Z.of_nat (nat_of_ascii c) in if (n <? 128)%Z then n else (n - 256)%Z.

Definition item_matches (c : ascii) (it : class_item) : bool :=
  match it with
  | IChar a => Ascii.eqb a c
  | IRange a b =>
      let '(lo, hi) := if (schar a >? schar b)%Z then (schar b, schar a) else (schar a, schar b) in
      (lo <=? schar c)%Z && (schar c <=? hi)%Z
  end.

Definition is_star (t : token) : bool := match t with TStar => true | _ => false end.

(** The loop of [stringmatchlen]: each token but [*] consumes one character;
    once the string is used up, only [*]s may remain.  A [*] first collapses
    with the [*]s after it; last in the pattern it matches the rest, otherwise
    it tries each non-empty suffix. *)
Fixpoint match_tokens (ts : list token) (s : string) {struct ts} : bool :=
  let after (ts' : list token) (s' : string) :=
    match s' with EmptyString => forallb is_star ts' | _ => match_tokens ts' s' end in
  match ts with
  | [] => match s with EmptyString => true | _ => false end
  | t :: ts' =>
      match s with
      | EmptyString => false
      | String c s' =>
          match t with
          | TStar =>
              (fix collapse (r : list token) : bool :=
                 match r with
                 | [] => true
                 | TStar :: r' => collapse r'
                 | _ => (fix try (u : string) : bool :=
                           match u with
                           | EmptyString => false
                           | String _ u' => match_tokens r u || try u'
                           end) s
                 end) ts'
          | TAny => after ts' s'
          | TLit a => Ascii.eqb a c && after ts' s'
          | TClass neg items => xorb neg (existsb (item_matches c) items) && after ts' s'
          end
      end
  end.

Definition glob (p s : string) : bool := match_tokens (tokenize p) s.

(** The tokens of a pattern read literally, one per character. *)
Fixpoint lits (s : string) : list token :=
  match s with EmptyString => [] | String c s' => TLit c :: lits s' end.

Definition is_glob_char (c : ascii) : bool :=
  Ascii.eqb c "*" || Ascii.eqb c "?" || Ascii.eqb c "[" || Ascii.eqb c "\".

(** A string with none of the special characters of a pattern. *)
Fixpoint no_glob_chars (s : string) : bool :=
  match s with EmptyString => true | String c s' => negb (is_glob_char c) && no_glob_chars s' end.

(** KEYS: a pattern of a single [*] lists every key without matching. *)
Definition keys_match (p k : string) : bool := String.eqb p "*" || glob p k.

(** The keys of the keyspace: string keys, then hash keys (a hash with no
    field does not exist in Redis). *)
Definition keyspace (d : db) : list string :=
  map fst (map_to_list (strs d)) ++
  filter (fun k => strs d !! k = None) (map fst (filter (fun kv : string * gmap string string => kv.2 <> ∅) (map_to_list (hashes d)))).

Inductive cmd : Type -> Type :=
  | CGet (k : string) : cmd (outcome string)
  | CSet (k v : string) : cmd (outcome unit)
  | CDel (k : string) : cmd (outcome unit)
  | CHMSet (k f v : string) : cmd (outcome unit)
  | CHDel (k f : string) : cmd (outcome unit)
  | CHGetAll (k : string) : cmd (outcome (list (string * string)))
  | CKeys (pat : string) : cmd (outcome (list string))
  | CMGet (ks : list string) : cmd (outcome (list (option string)))
  | CHSetNX (k f v : string) : cmd (outcome bool)
  | CHGet (k f : string) : cmd (outcome string)
  | CHScan (k : string) : cmd (outcome (list string)).

(** The trace label of a command. *)
Inductive op :=
  | OGet (k : string) | OSet (k v : string) | ODel (k : string)
  | OHMSet (k f v : string) | OHDel (k f : string) | OHGetAll (k : string)
  | OKeys (pat : string) | OMGet (ks : list string)
  | OHSetNX (k f v : string) | OHGet (k f : string) | OHScan (k : string).

Definition label {X} (c : cmd X) : op :=
  match c with
  | CGet k => OGet k
  | CSet k v => OSet k v
  | CDel k => ODel k
  | CHMSet k f v => OHMSet k f v
  | CHDel k f => OHDel k f
  | CHGetAll k => OHGetAll k
  | CKeys p => OKeys p
  | CMGet ks => OMGet ks
  | CHSetNX k f v => OHSetNX k f v
  | CHGet k f => OHGet k f
  | CHScan k => OHScan k
  end.

Definition hash_of (d : db) (k : string) : gmap string string :=
  default ∅ (hashes d !! k).

(** One atomic Redis command. *)
Definition exec {X} (c : cmd X) (d : db) : X * db :=
  match c in cmd X return X * db with
  | CGet k =>
      if down d then (Err ErrConn, d) else
      match strs d !! k with Some v => (Ok v, d) | None => (Err RedisNil, d) end
  | CSet k v =>
      if down d then (Err ErrConn, d) else
      (Ok tt, mkDb (<[k:=v]> (strs d)) (hashes d) (down d))
  | CDel k =>
      if down d then (Err ErrConn, d) else
      (Ok tt, mkDb (delete k (strs d)) (delete k (hashes d)) (down d))
  | CHMSet k f v =>
      if down d then (Err ErrConn, d) else
      (Ok tt, mkDb (strs d) (<[k:=<[f:=v]> (hash_of d k)]> (hashes d)) (down d))
  | CHDel k f =>
      if down d then (Err ErrConn, d) else
      (Ok tt, mkDb (strs d) (<[k:=delete f (hash_of d k)]> (hashes d)) (down d))
  | CHGetAll k =>
      if down d then (Err ErrConn, d) else (Ok (map_to_list (hash_of d k)), d)
  | CKeys p =>
      if down d then (Err ErrConn, d) else
      (Ok (filter (fun k => keys_match p k = true) (keyspace d)), d)
  | CMGet ks =>
      (** with no keys, go-redis sends a bare MGET, which Redis rejects; a key
          holding no string value gives nil *)
      if down d then (Err ErrConn, d) else
      match ks with
      | [] => (Err ErrWrongArgs, d)
      | _ => (Ok (map (fun k => strs d !! k) ks), d)
      end
  | CHSetNX k f v =>
      if down d then (Err ErrConn, d) else
      match hash_of d k !! f with
      | Some _ => (Ok false, d)
      | None => (Ok true, mkDb (strs d) (<[k:=<[f:=v]> (hash_of d k)]> (hashes d)) (down d))
      end
  | CHGet k f =>
      if down d then (Err ErrConn, d) else
      match hash_of d k !! f with Some v => (Ok v, d) | None => (Err RedisNil, d) end
  | CHScan k =>
      (** a full HSCAN iteration: field, value, field, value, ... *)
      if down d then (Err ErrConn, d) else
      (Ok (List.concat (map (fun fv => [fv.1; fv.2]) (map_to_list (hash_of d k)))), d)
  end.

(* ------------------------------------------------------------------------- *)
(** ** Programs of Redis commands *)

Inductive prog (A : Type) : Type :=
  | Ret (a : A)
  | Step {X : Type} (c : cmd X) (k : X -> prog A).
Arguments Ret {A} a.
Arguments Step {A X} c k.

Fixpoint bind {A B} (p : prog A) (f : A -> prog B) : prog B :=
  match p with
  | Ret a => f a
  | Step c k => Step c (fun x => bind (k x) f)
  end.

Notation "x <- p ;; q" := (bind p (fun x => q))
  (at level 100, p at next level, right associativity).

Definition call {X} (c : cmd X) : prog X := Step c Ret.

(** Sequential run: the result, the final database and the commands issued. *)
Fixpoint run {A} (p : prog A) (d : db) : A * db * list op :=
  match p with
  | Ret a => (a, d, [])
  | Step c k =>
      let '(x, d') := exec c d in
      let '(a, d'', tr) := run (k x) d' in
      (a, d'', label c :: tr)
  end.

Definition result {A} (p : prog A) (d : db) : A := fst (fst (run p d)).
Definition final {A} (p : prog A) (d : db) : db := snd (fst (run p d)).
Definition trace {A} (p : prog A) (d : db) : list op := snd (run p d).

(** Go's early return on a non-nil error. *)
Definition check {A B} (r : outcome A) (k : A -> prog (outcome B)) : prog (outcome B) :=
  match r with
  | Ok a => k a
  | Err e => Ret (Err e)
  | Panic => Ret Panic
  end.

(* ------------------------------------------------------------------------- *)
(** ** Keys *)

Definition prefixPolicy := "policy".
Definition prefixResource := "resource".
Definition prefixSubject := "subject".

(** [prefixKey]: [strings.Join(vals, "_")]. *)
Definition prefixKey (vals : list string) : string := String.concat "_" vals.

Record RedisManager := mkRedisManager { keyPrefix : string }.

Definition NewRedisManager (keyPrefix : string) : RedisManager :=
  mkRedisManager (if String.eqb keyPrefix "" then "ladon" else keyPrefix).

(** [ladon.Request]; the request context is not read by the manager. *)
Record Request := mkRequest { Resource : string; Action : string; Subject : string }.

(* ------------------------------------------------------------------------- *)
(** ** Go slices and int64 arithmetic *)

Definition wrap64 (z : Z) : Z := (((z + 2 ^ 63) mod 2 ^ 64) - 2 ^ 63)%Z.
Definition int64_range (z : Z) : Prop := (- 2 ^ 63 <= z < 2 ^ 63)%Z.

(** [s[lo:hi]] on a slice whose capacity is its length: panics unless
    [0 <= lo <= hi <= cap(s)]. *)
Definition go_slice {A} (s : list A) (lo hi : Z) : outcome (list A) :=
  if (0 <=? lo)%Z && (lo <=? hi)%Z && (hi <=? Z.of_nat (length s))%Z
  then Ok (firstn (Z.to_nat (hi - lo)) (skipn (Z.to_nat lo) s))
  else Panic.

(* ------------------------------------------------------------------------- *)
(** ** The manager *)

Section Manager.

(** [json.Marshal] and [json.Unmarshal] on [DefaultPolicy]; [None] is an
    unmarshal error. *)
Variable marshal : Policy -> string.
Variable unmarshal : string -> option Policy.
Variable m : RedisManager.

(** The loops that put a policy into the hashmap of each literal. *)
Fixpoint hmset_each (pre : string) (lits : list string) (field p : string) : prog (outcome unit) :=
  match lits with
  | [] => Ret (Ok tt)
  | v :: vs =>
      r <- call (CHMSet (prefixKey [keyPrefix m; pre; v]) field p) ;;
      check r (fun _ => hmset_each pre vs field p)
  end.

(** The loops that remove a policy from the hashmap of each literal. *)
Fixpoint hdel_each (pre : string) (lits : list string) (field : string) : prog (outcome unit) :=
  match lits with
  | [] => Ret (Ok tt)
  | v :: vs =>
      r <- call (CHDel (prefixKey [keyPrefix m; pre; v]) field) ;;
      check r (fun _ => hdel_each pre vs field)
  end.

(** The loops that unmarshal each value of a hashmap, appending to [policies];
    the first failure returns [ErrBadConversion]. *)
Fixpoint decode_strs (vs : list string) : option (list Policy) :=
  match vs with
  | [] => Some []
  | v :: vs' =>
      match unmarshal v with
      | None => None
      | Some p => option_map (cons p) (decode_strs vs')
      end
  end.

(** The loop of [GetAll] over the [MGet] values: [v.(string)] panics on a
    nil value. *)
Fixpoint decode_values (vs : list (option string)) : outcome (list Policy) :=
  match vs with
  | [] => Ok []
  | None :: _ => Panic
  | Some v :: vs' =>
      match unmarshal v with
      | None => Err ErrBadConversion
      | Some p =>
          match decode_values vs' with
          | Ok ps => Ok (p :: ps)
          | Err e => Err e
          | Panic => Panic
          end
      end
  end.

Definition policy_key (id : string) : string := prefixKey [keyPrefix m; prefixPolicy; id].
Definition lit_key (pre v : string) : string := prefixKey [keyPrefix m; pre; v].

Definition Create (policy : Policy) : prog (outcome unit) :=
  let key := policy_key (GetID policy) in
  g <- call (CGet key) ;;
  match g with
  | Ok _ => Ret (Err ErrPolicyExists)
  | _ =>
      let p := marshal policy in
      s <- call (CSet key p) ;;
      check s (fun _ =>
      r <- hmset_each prefixResource (GetResources policy) (GetID policy) p ;;
      check r (fun _ =>
      hmset_each prefixSubject (GetSubjects policy) (GetID policy) p))
  end.

(** The clamp and the slice at the end of [GetAll]. *)
Definition getall_page (policies : list Policy) (limit offset : Z) : outcome (list Policy) :=
  let n := Z.of_nat (length policies) in
  if (wrap64 (offset + limit) >? n)%Z
  then go_slice policies 0 n
  else go_slice policies offset limit.

(** [GetAll] up to the decoded collection: KEYS, MGET and the decoding loop. *)
Definition getall_load : prog (outcome (list Policy)) :=
  let key := prefixKey [keyPrefix m; prefixPolicy; "*"] in
  ks <- call (CKeys key) ;;
  check ks (fun keys =>
  vs <- call (CMGet keys) ;;
  check vs (fun values => Ret (decode_values values))).

Definition GetAll (limit offset : Z) : prog (outcome (list Policy)) :=
  r <- getall_load ;;
  Ret (match r with
       | Ok policies => getall_page policies limit offset
       | Err e => Err e
       | Panic => Panic
       end).

Definition Get (id : string) : prog (outcome Policy) :=
  let key := policy_key id in
  c <- call (CGet key) ;;
  match c with
  | Ok b =>
      match unmarshal b with
      | Some policy => Ret (Ok policy)
      | None => Ret (Err ErrBadConversion)
      end
  | _ => Ret (Err ErrNotFound)
  end.

Definition Delete (id : string) : prog (outcome unit) :=
  let key := policy_key id in
  g <- call (CGet key) ;;
  match g with
  | Ok res =>
      match unmarshal res with
      | None => Ret (Err ErrBadConversion)
      | Some policy =>
          d <- call (CDel key) ;;
          check d (fun _ =>
          r <- hdel_each prefixResource (GetResources policy) (GetID policy) ;;
          check r (fun _ =>
          hdel_each prefixSubject (GetSubjects policy) (GetID policy)))
      end
  | _ => Ret (Err ErrNotFound)
  end.

Definition FindPoliciesForResource (resource : string) : prog (outcome (list Policy)) :=
  let rKey := prefixKey [keyPrefix m; prefixResource; resource] in
  c <- call (CHGetAll rKey) ;;
  check c (fun rPolicies =>
  match decode_strs (map snd rPolicies) with
  | None => Ret (Err ErrBadConversion)
  | Some policies => Ret (Ok [])
  end).

Definition FindPoliciesForSubject (subject : string) : prog (outcome (list Policy)) :=
  let sKey := prefixKey [keyPrefix m; prefixSubject; subject] in
  c <- call (CHGetAll sKey) ;;
  check c (fun sPolicies =>
  match decode_strs (map snd sPolicies) with
  | None => Ret (Err ErrBadConversion)
  | Some policies => Ret (Ok policies)
  end).

Definition FindRequestCandidates (r : Request) : prog (outcome (list Policy)) :=
  let rKey := prefixKey [keyPrefix m; prefixResource; Resource r] in
  let sKey := prefixKey [keyPrefix m; prefixSubject; Subject r] in
  rc <- call (CHGetAll rKey) ;;
  sc <- call (CHGetAll sKey) ;;
  check rc (fun rPolicies =>
  check sc (fun sPolicies =>
  match decode_strs (map snd rPolicies) with
  | None => Ret (Err ErrBadConversion)
  | Some rps =>
      match decode_strs (map snd sPolicies) with
      | None => Ret (Err ErrBadConversion)
      | Some sps => Ret (Ok (app rps sps))
      end
  end)).

Definition Update (policy : Policy) : prog (outcome unit) :=
  let key := policy_key (GetID policy) in
  g <- call (CGet key) ;;
  match g with
  | Ok _ =>
      let p := marshal policy in
      s <- call (CSet key p) ;;
      check s (fun _ =>
      r <- hmset_each prefixResource (GetResources policy) (GetID policy) p ;;
      check r (fun _ =>
      hmset_each prefixSubject (GetSubjects policy) (GetID policy) p))
  | _ => Ret (Err ErrNotFound)
  end.

End Manager.

(* ------------------------------------------------------------------------- *)
(** ** The HSETNX manager (src/unnamed/part_000, lines 1-114) *)

(** All policies live as fields of one hash, [keyPrefix + "ladon:policies"]. *)
Module HashManager.
Section HashManager.
Variable marshal : Policy -> string.
Variable unmarshal : string -> option Policy.
Variable m : RedisManager.

Definition NewRedisManager (keyPrefix : string) : RedisManager := mkRedisManager keyPrefix.

Definition redisPolicies := "ladon:policies".
Definition redisPoliciesKey : string := String.append (keyPrefix m) redisPolicies.

Definition redisUnmarshalPolicy (policy : string) : outcome Policy :=
  match unmarshal policy with Some p => Ok p | None => Err ErrJSON end.

(** [wasKeySet] is false also when HSETNX fails. *)
Definition Create (policy : Policy) : prog (outcome unit) :=
  let payload := marshal policy in
  r <- call (CHSetNX redisPoliciesKey (GetID policy) payload) ;;
  match r with
  | Ok true => Ret (Ok tt)
  | _ => Ret (Err redisPolicyExists)
  end.

Definition Get (id : string) : prog (outcome Policy) :=
  r <- call (CHGet redisPoliciesKey id) ;;
  match r with
  | Ok resp => Ret (redisUnmarshalPolicy resp)
  | Err RedisNil => Ret (Err redisNotFound)
  | Err e => Ret (Err e)
  | Panic => Ret Panic
  end.

Definition Delete (id : string) : prog (outcome unit) :=
  r <- call (CHDel redisPoliciesKey id) ;;
  check r (fun _ => Ret (Ok tt)).

(** The iterator loop: each round calls [Next] twice and decodes the second
    element, the value of a field. *)
Fixpoint scan_loop (xs : list string) : outcome (list Policy) :=
  match xs with
  | [] => Ok []
  | [_] => Ok []
  | _ :: v :: rest =>
      match redisUnmarshalPolicy v with
      | Ok p =>
          match scan_loop rest with
          | Ok ps => Ok (p :: ps)
          | Err e => Err e
          | Panic => Panic
          end
      | Err e => Err e
      | Panic => Panic
      end
  end.

Definition FindRequestCandidates (r : Request) : prog (outcome (list Policy)) :=
  s <- call (CHScan redisPoliciesKey) ;;
  match s with
  | Ok xs => Ret (scan_loop xs)
  | Err e => Ret (Err e)
  | Panic => Ret Panic
  end.

Definition Update (policy : Policy) : prog (outcome unit) := Ret (Ok tt).

End HashManager.
End HashManager.

(* ------------------------------------------------------------------------- *)
(** ** The full-scan manager (src/unnamed/part_000, lines 116-296) *)

(** One string key per policy, [keyPrefix + id]; no indices. *)
Module PlainManager.
Section PlainManager.
Variable marshal : Policy -> string.
Variable unmarshal : string -> option Policy.
Variable m : RedisManager.

Definition NewRedisManager (keyPrefix : string) : RedisManager := mkRedisManager keyPrefix.

Definition getKey (key : string) : string := String.append (keyPrefix m) key.

Definition Create (policy : Policy) : prog (outcome unit) :=
  let key := getKey (GetID policy) in
  g <- call (CGet key) ;;
  match g with
  | Ok _ => Ret (Err ErrPolicyExists)
  | _ =>
      s <- call (CSet key (marshal policy)) ;;
      check s (fun _ => Ret (Ok tt))
  end.

(** KEYS, MGET and the decoding loop, shared by [GetAll] and
    [FindRequestCandidates]. *)
Definition load_all : prog (outcome (list Policy)) :=
  ks <- call (CKeys (getKey "*")) ;;
  check ks (fun keys =>
  vs <- call (CMGet keys) ;;
  check vs (fun values => Ret (decode_values unmarshal values))).

Definition GetAll (limit offset : Z) : prog (outcome (list Policy)) :=
  r <- load_all ;;
  Ret (match r with
       | Ok policies => getall_page policies limit offset
       | Err e => Err e
       | Panic => Panic
       end).

Definition Get (id : string) : prog (outcome Policy) :=
  let key := getKey id in
  c <- call (CGet key) ;;
  match c with
  | Ok b =>
      match unmarshal b with
      | Some policy => Ret (Ok policy)
      | None => Ret (Err ErrBadConversion)
      end
  | _ => Ret (Err ErrNotFound)
  end.

Definition Delete (id : string) : prog (outcome unit) :=
  let key := getKey id in
  g <- call (CGet key) ;;
  match g with
  | Ok _ =>
      d <- call (CDel key) ;;
      check d (fun _ => Ret (Ok tt))
  | _ => Ret (Err ErrNotFound)
  end.

Definition FindRequestCandidates (r : Request) : prog (outcome (list Policy)) := load_all.

Definition Update (policy : Policy) : prog (outcome unit) :=
  let key := getKey (GetID policy) in
  g <- call (CGet key) ;;
  match g with
  | Ok _ =>
      s <- call (CSet key (marshal policy)) ;;
      check s (fun _ => Ret (Ok tt))
  | _ => Ret (Err ErrNotFound)
  end.

End PlainManager.
End PlainManager.

(* ------------------------------------------------------------------------- *)
(** ** Concurrent runs *)

(** Interleaved run of several manager calls: [sched] lists which call
    performs its next Redis command; a finished call is skipped. *)
Fixpoint run_interleaved {A} (sched : list nat) (ts : list (prog A)) (d : db) : list (prog A) * db :=
  match sched with
  | [] => (ts, d)
  | i :: sched' =>
      match ts !! i with
      | Some (Step c k) =>
          let '(x, d') := exec c d in
          run_interleaved sched' (<[i:=k x]> ts) d'
      | _ => run_interleaved sched' ts d
      end
  end.

Definition returned {A} (p : prog A) : option A :=
  match p with Ret a => Some a | Step _ _ => None end.

(** The loop of the Go tests: [Create] each policy in turn; the policies
    whose [Create] returned nil are the created ones. *)
Fixpoint create_all (marshal : Policy -> string) (m : RedisManager)
    (ps : list Policy) (d : db) : db * list Policy :=
  match ps with
  | [] => (d, [])
  | p :: ps' =>
      let '(o, d', _) := run (Create marshal m p) d in
      let '(d'', cs) := create_all marshal m ps' d' in
      (d'', match o with Ok _ => p :: cs | _ => cs end)
  end.

(** Reference full scan: the created policies that name subject [s] or
    resource [r]. *)
Definition reference_scan (created : list Policy) (s r : string) : list Policy :=
  List.filter (fun p => bool_decide (s ∈ GetSubjects p) || bool_decide (r ∈ GetResources p)) created.

(* ------------------------------------------------------------------------- *)
(** ** A concrete codec for evaluating runs *)

(** A flat text encoding standing in for [encoding/json] on concrete inputs:
    fields separated by [;], list items by [,].  It round-trips every policy
    whose strings avoid both separators. *)
Fixpoint split_on (c : ascii) (s : string) : list string :=
  match s with
  | EmptyString => [EmptyString]
  | String c' s' =>
      if Ascii.eqb c c' then EmptyString :: split_on c s'
      else match split_on c s' with
           | [] => [String c' EmptyString]
           | w :: ws => String c' w :: ws
           end
  end.

Definition enc_list (l : list string) : string := String.concat "," l.
Definition dec_list (s : string) : list string :=
  if String.eqb s "" then [] else split_on "," s.

Definition flat_marshal (p : Policy) : string :=
  String.concat ";" [ID p; Description p; enc_list (Subjects p); Effect p;
                     enc_list (Resources p); enc_list (Actions p); Conditions p].

Definition flat_unmarshal (s : string) : option Policy :=
  match split_on ";" s with
  | [i; d; su; e; r; a; c] => Some (mkPolicy i d (dec_list su) e (dec_list r) (dec_list a) c)
  | _ => None
  end.

(* ------------------------------------------------------------------------- *)
(** ** Fixtures from manager_redis_test.go *)

Definition test_policy (id : string) (subjects resources : list string) : Policy :=
  mkPolicy id "" subjects "" resources [] "{}".

(** TestFindRequestCandidate *)
Definition find_manager := NewRedisManager "find".
Definition find_policies : list Policy :=
  [test_policy "test-policy-1" ["ex1"; "ex2"] ["exr1"; "exr2"];
   test_policy "test-policy-2" ["ex1"; "ex2"] [];
   test_policy "test-policy-3" ["ex3"; "ex4"] []].
Definition find_request := mkRequest "exr1" "get" "ex1".

(** TestUpdate and TestDelete *)
Definition update_manager := NewRedisManager "update".
Definition delete_manager := NewRedisManager "delete".
Definition policy_12 := test_policy "example-policy-1" ["1"; "2"] [].
Definition policy_234 := test_policy "example-policy-1" ["2"; "3"; "4"] [].

(** TestFindPoliciesForResource *)
Definition resource_manager := NewRedisManager "findResource".
Definition resource_policy := test_policy "test-policy-1" ["ex1"; "ex2"] ["exr1"; "exr2"].

(** Two callers creating the same identifier with different values. *)
Definition create_manager := NewRedisManager "create".
Definition policy_a := mkPolicy "example-policy-2" "a" [] "" [] [] "{}".
Definition policy_b := mkPolicy "example-policy-2" "b" [] "" [] [] "{}".

Definition delete_db : db := final (Create flat_marshal delete_manager policy_12) empty_db.

(* ========================================================================= *)
(** * Properties *)

(** ** Running programs *)

Lemma run_bind {A B} (p : prog A) (f : A -> prog B) d :
  run (bind p f) d =
    let '(a, d', t) := run p d in
    let '(b, d'', t') := run (f a) d' in (b, d'', t ++ t').
Proof.
  revert d. induction p as [a | X c k IH]; intros d; simpl.
  - destruct (run (f a) d) as [[b d''] t']. reflexivity.
  - destruct (exec c d) as [x d']. rewrite IH.
    destruct (run (k x) d') as [[a d1] t].
    destruct (run (f a) d1) as [[b d2] t']. reflexivity.
Qed.

Lemma run_call {X} (c : cmd X) d :
  run (call c) d = (fst (exec c d), snd (exec c d), [label c]).
Proof. unfold call. simpl. destruct (exec c d). reflexivity. Qed.

Lemma hash_of_insert d s b k k' h :
  hash_of (mkDb s (<[k:=h]> (hashes d)) b) k' =
    if decide (k = k') then h else hash_of d k'.
Proof.
  unfold hash_of; simpl. destruct (decide (k = k')) as [->|Hne].
  - by rewrite lookup_insert_eq.
  - by rewrite lookup_insert_ne.
Qed.

Section Loops.
Variable m : RedisManager.

(** With Redis reachable, the HMSET loop succeeds and sets field [f] of the
    hashmap of each literal to [p], leaving every other field unchanged. *)
Lemma run_hmset_each pre lits f p d :
  down d = false ->
  exists d',
    run (hmset_each m pre lits f p) d =
      (Ok tt, d', map (fun v => OHMSet (lit_key m pre v) f p) lits) /\
    strs d' = strs d /\ down d' = false /\
    (forall k, In k (map (lit_key m pre) lits) -> hash_of d' k !! f = Some p) /\
    (forall k g, (g <> f \/ ~ In k (map (lit_key m pre) lits)) ->
                 hash_of d' k !! g = hash_of d k !! g).
Proof.
  revert d. induction lits as [|v vs IH]; intros d Hup.
  - exists d. repeat split; auto. intros k [].
  - cbn [hmset_each]. rewrite run_bind, run_call. cbn [exec fst snd label]. rewrite Hup.
    cbn [fst snd check]. fold (lit_key m pre v).
    set (d1 := mkDb (strs d) (<[lit_key m pre v:=<[f:=p]> (hash_of d (lit_key m pre v))]> (hashes d)) false).
    destruct (IH d1) as (d' & Hrun & Hs & Hdn & Hin & Hout); [reflexivity|].
    rewrite Hrun. cbn [map app].
    exists d'. split; [reflexivity|]. split; [exact Hs|]. split; [exact Hdn|]. split.
    + intros k Hk. destruct (in_dec String.string_dec k (map (lit_key m pre) vs)) as [Hk'|Hk'].
      * by apply Hin.
      * destruct Hk as [<-|Hk]; [|contradiction].
        rewrite Hout by (right; exact Hk'). unfold d1. rewrite hash_of_insert.
        rewrite decide_True by reflexivity. apply lookup_insert_eq.
    + intros k g Hkg. rewrite Hout.
      * unfold d1. rewrite hash_of_insert.
        destruct (decide (lit_key m pre v = k)) as [<-|]; [|reflexivity].
        destruct Hkg as [Hg|Hk]; [by rewrite lookup_insert_ne|].
        exfalso. apply Hk. by left.
      * destruct Hkg as [Hg|Hk]; [by left|right; intros H; apply Hk; by right].
Qed.

(** With Redis reachable, the HDEL loop succeeds and removes field [f] from
    the hashmap of each literal, leaving every other field unchanged. *)
Lemma run_hdel_each pre lits f d :
  down d = false ->
  exists d',
    run (hdel_each m pre lits f) d =
      (Ok tt, d', map (fun v => OHDel (lit_key m pre v) f) lits) /\
    strs d' = strs d /\ down d' = false /\
    (forall k, In k (map (lit_key m pre) lits) -> hash_of d' k !! f = None) /\
    (forall k g, (g <> f \/ ~ In k (map (lit_key m pre) lits)) ->
                 hash_of d' k !! g = hash_of d k !! g).
Proof.
  revert d. induction lits as [|v vs IH]; intros d Hup.
  - exists d. repeat split; auto. intros k [].
  - cbn [hdel_each]. rewrite run_bind, run_call. cbn [exec fst snd label]. rewrite Hup.
    cbn [fst snd check]. fold (lit_key m pre v).
    set (d1 := mkDb (strs d) (<[lit_key m pre v:=delete f (hash_of d (lit_key m pre v))]> (hashes d)) false).
    destruct (IH d1) as (d' & Hrun & Hs & Hdn & Hin & Hout); [reflexivity|].
    rewrite Hrun. cbn [map app].
    exists d'. split; [reflexivity|]. split; [exact Hs|]. split; [exact Hdn|]. split.
    + intros k Hk. destruct (in_dec String.string_dec k (map (lit_key m pre) vs)) as [Hk'|Hk'].
      * by apply Hin.
      * destruct Hk as [<-|Hk]; [|contradiction].
        rewrite Hout by (right; exact Hk'). unfold d1. rewrite hash_of_insert.
        rewrite decide_True by reflexivity. apply lookup_delete_eq.
    + intros k g Hkg. rewrite Hout.
      * unfold d1. rewrite hash_of_insert.
        destruct (decide (lit_key m pre v = k)) as [<-|]; [|reflexivity].
        destruct Hkg as [Hg|Hk]; [by rewrite lookup_delete_ne|].
        exfalso. apply Hk. by left.
      * destruct Hkg as [Hg|Hk]; [by left|right; intros H; apply Hk; by right].
Qed.

(** The values an HMSET loop leaves in the hashmaps are old ones or [p]. *)
Lemma hmset_each_values pre lits f p d d' tr :
  down d = false -> run (hmset_each m pre lits f p) d = (Ok tt, d', tr) ->
  forall k g v, hash_of d' k !! g = Some v -> hash_of d k !! g = Some v \/ v = p.
Proof.
  intros Hup Hrun k g v Hv.
  destruct (run_hmset_each pre lits f p d Hup) as (d2 & Hr2 & _ & _ & Hin & Hout).
  rewrite Hr2 in Hrun. injection Hrun as <- _.
  destruct (decide (g = f)) as [->|Hg].
  - destruct (in_dec String.string_dec k (map (lit_key m pre) lits)) as [Hk|Hk].
    + rewrite Hin in Hv by exact Hk. injection Hv as <-. by right.
    + rewrite Hout in Hv by (right; exact Hk). by left.
  - rewrite Hout in Hv by (left; exact Hg). by left.
Qed.

End Loops.

(** ** Create, with Redis reachable *)

Section CreateRuns.
Variable marshal : Policy -> string.
Variable m : RedisManager.

Lemma run_Create_exists p d v :
  down d = false -> strs d !! policy_key m (GetID p) = Some v ->
  run (Create marshal m p) d = (Err ErrPolicyExists, d, [OGet (policy_key m (GetID p))]).
Proof.
  intros Hup Hk. unfold Create. rewrite run_bind, run_call. cbn [exec fst snd label].
  rewrite Hup, Hk. reflexivity.
Qed.

Lemma run_Create_fresh p d :
  down d = false -> strs d !! policy_key m (GetID p) = None ->
  exists d' tr,
    run (Create marshal m p) d = (Ok tt, d', tr) /\
    strs d' = <[policy_key m (GetID p) := marshal p]> (strs d) /\
    down d' = false /\
    (forall k, In k (map (lit_key m prefixResource) (GetResources p)) ->
               hash_of d' k !! GetID p = Some (marshal p)) /\
    (forall k, In k (map (lit_key m prefixSubject) (GetSubjects p)) ->
               hash_of d' k !! GetID p = Some (marshal p)) /\
    (forall k g, g <> GetID p -> hash_of d' k !! g = hash_of d k !! g) /\
    (forall k g v, hash_of d' k !! g = Some v -> hash_of d k !! g = Some v \/ v = marshal p).
Proof.
  intros Hup Hk. unfold Create. rewrite run_bind, run_call. cbn [exec fst snd label].
  rewrite Hup, Hk. cbn [fst snd check app].
  rewrite run_bind, run_call. cbn [exec fst snd label]. rewrite Hup. cbn [fst snd check].
  set (d1 := mkDb (<[policy_key m (GetID p):=marshal p]> (strs d)) (hashes d) false).
  destruct (run_hmset_each m prefixResource (GetResources p) (GetID p) (marshal p) d1)
    as (d2 & Hr2 & Hs2 & Hdn2 & Hin2 & Hout2); [reflexivity|].
  rewrite run_bind, Hr2. cbn [check].
  destruct (run_hmset_each m prefixSubject (GetSubjects p) (GetID p) (marshal p) d2)
    as (d3 & Hr3 & Hs3 & Hdn3 & Hin3 & Hout3); [exact Hdn2|].
  rewrite Hr3. eexists d3, _. split; [reflexivity|].
  split; [rewrite Hs3, Hs2; reflexivity|]. split; [exact Hdn3|]. split; [|split].
  - intros k Hk'. destruct (in_dec String.string_dec k (map (lit_key m prefixSubject) (GetSubjects p))).
    + by apply Hin3.
    + rewrite Hout3 by (right; assumption). by apply Hin2.
  - intros k Hk'. by apply Hin3.
  - split.
    + intros k g Hg. rewrite Hout3, Hout2 by (left; exact Hg). reflexivity.
    + intros k g v Hv.
      destruct (hmset_each_values m _ _ _ _ d2 d3 _ Hdn2 Hr3 k g v Hv) as [Hv2|]; [|by right].
      exact (hmset_each_values m _ _ _ _ d1 d2 _ eq_refl Hr2 k g v Hv2).
Qed.

End CreateRuns.

(** ** Decoding loops *)

Section Decode.
Variable unmarshal : string -> option Policy.

Lemma decode_strs_complete vs :
  (forall v, In v vs -> is_Some (unmarshal v)) ->
  exists qs, decode_strs unmarshal vs = Some qs /\
    forall v q, In v vs -> unmarshal v = Some q -> In q qs.
Proof.
  induction vs as [|v vs IH]; intros Hall; simpl.
  - exists []. split; [reflexivity|]. intros ? ? [].
  - destruct (Hall v (or_introl eq_refl)) as [q0 Hq0]. rewrite Hq0.
    destruct IH as (qs & Hqs & Hin); [intros w Hw; apply Hall; by right|].
    rewrite Hqs. exists (q0 :: qs). split; [reflexivity|].
    intros w q [<-|Hw] Hq.
    + left. congruence.
    + right. by apply (Hin w).
Qed.

Lemma in_hash_values (h : gmap string string) f v :
  h !! f = Some v -> In v (map snd (map_to_list h)).
Proof.
  intros Hf. apply in_map_iff. exists (f, v). split; [reflexivity|].
  apply list_elem_of_In. by apply elem_of_map_to_list.
Qed.

Lemma hash_values_in (h : gmap string string) v :
  In v (map snd (map_to_list h)) -> exists f, h !! f = Some v.
Proof.
  intros Hv. apply in_map_iff in Hv as ([f v'] & <- & Hin).
  apply list_elem_of_In, elem_of_map_to_list in Hin. by exists f.
Qed.

End Decode.

(** ** Index completeness after a sequence of Create calls *)

Section Completeness.
Variable marshal : Policy -> string.
Variable unmarshal : string -> option Policy.
Variable m : RedisManager.

(** What a sequence of [Create] calls maintains: Redis stays reachable,
    every hashmap value decodes, and every created policy has its primary key
    and its field under each of its subject and resource literals. *)
Definition create_inv (created : list Policy) (d : db) : Prop :=
  down d = false /\
  (forall k g v, hash_of d k !! g = Some v -> is_Some (unmarshal v)) /\
  (forall q, In q created ->
     unmarshal (marshal q) = Some q /\
     is_Some (strs d !! policy_key m (GetID q)) /\
     (forall k, In k (map (lit_key m prefixResource) (GetResources q)) ->
                hash_of d k !! GetID q = Some (marshal q)) /\
     (forall k, In k (map (lit_key m prefixSubject) (GetSubjects q)) ->
                hash_of d k !! GetID q = Some (marshal q))).

Lemma create_inv_step created p d :
  unmarshal (marshal p) = Some p -> create_inv created d ->
  let '(o, d', _) := run (Create marshal m p) d in
  create_inv (match o with Ok _ => created ++ [p] | _ => created end) d'.
Proof.
  intros Hrt (Hup & Hvals & Hcr).
  destruct (strs d !! policy_key m (GetID p)) as [v|] eqn:Hk.
  - rewrite (run_Create_exists marshal m p d v Hup Hk). split; [exact Hup|]. split; assumption.
  - destruct (run_Create_fresh marshal m p d Hup Hk)
      as (d' & tr & Hrun & Hs & Hdn & Hres & Hsub & Hout & Hval).
    rewrite Hrun. split; [exact Hdn|]. split.
    + intros k g v Hv. destruct (Hval k g v Hv) as [Hv' | ->].
      * exact (Hvals k g v Hv').
      * rewrite Hrt. by eexists.
    + intros q Hq. apply in_app_or in Hq as [Hq | [<- | []]].
      * destruct (Hcr q Hq) as (Hrtq & Hkq & Hrq & Hsq).
        assert (Hkne : policy_key m (GetID p) <> policy_key m (GetID q))
          by (intros Heq; rewrite <- Heq, Hk in Hkq; by destruct Hkq).
        assert (Hne : GetID q <> GetID p) by (intros Heq; apply Hkne; by rewrite Heq).
        split; [exact Hrtq|]. split; [|split].
        -- rewrite Hs, lookup_insert_ne by exact Hkne. exact Hkq.
        -- intros k Hk'. rewrite Hout by exact Hne. by apply Hrq.
        -- intros k Hk'. rewrite Hout by exact Hne. by apply Hsq.
      * split; [exact Hrt|]. split; [|split; assumption].
        rewrite Hs, lookup_insert_eq. by eexists.
Qed.

Lemma create_all_inv ps d created :
  Forall (fun p => unmarshal (marshal p) = Some p) ps -> create_inv created d ->
  create_inv (created ++ snd (create_all marshal m ps d)) (fst (create_all marshal m ps d)).
Proof.
  revert d created. induction ps as [|p ps IH]; intros d created Hrt Hinv.
  - simpl. by rewrite app_nil_r.
  - cbn [create_all]. inversion Hrt as [|? ? Hp Hps]; subst.
    pose proof (create_inv_step created p d Hp Hinv) as Hstep.
    destruct (run (Create marshal m p) d) as [[o d'] t].
    specialize (IH d' _ Hps Hstep).
    destruct (create_all marshal m ps d') as [d'' cs]. simpl in IH |- *.
    destruct o; try exact IH. by rewrite <- app_assoc in IH.
Qed.

End Completeness.

(** ** FindRequestCandidates, with Redis reachable *)

Lemma FindRequestCandidates_up unmarshal m r d :
  down d = false ->
  run (FindRequestCandidates unmarshal m r) d =
    (match decode_strs unmarshal (map snd (map_to_list (hash_of d (lit_key m prefixResource (Resource r))))) with
     | None => Err ErrBadConversion
     | Some rps =>
         match decode_strs unmarshal (map snd (map_to_list (hash_of d (lit_key m prefixSubject (Subject r))))) with
         | None => Err ErrBadConversion
         | Some sps => Ok (app rps sps)
         end
     end,
     d,
     [OHGetAll (lit_key m prefixResource (Resource r)); OHGetAll (lit_key m prefixSubject (Subject r))]).
Proof.
  intros Hup. unfold FindRequestCandidates. do 3 (cbn; rewrite ?Hup).
  unfold lit_key.
  destruct (decode_strs _ _); [destruct (decode_strs _ _)|]; reflexivity.
Qed.

Lemma create_inv_empty marshal unmarshal m : create_inv marshal unmarshal m [] empty_db.
Proof.
  split; [reflexivity|]. split; [|intros ? []].
  intros k g v Hv. unfold hash_of in Hv. simpl in Hv.
  rewrite lookup_empty in Hv. simpl in Hv. by rewrite lookup_empty in Hv.
Qed.

(** C6: after a sequence of [Create] calls (Redis reachable, and the codec
    round-tripping the policies created), [FindRequestCandidates] on subject
    [s] and resource [r] succeeds and returns every created policy whose
    declared subjects include [s] or whose declared resources include [r], as
    computed by the reference full scan over the created policies. *)
Theorem FindRequestCandidates_no_false_negatives marshal unmarshal m ps r :
  Forall (fun p => unmarshal (marshal p) = Some p) ps ->
  exists l,
    result (FindRequestCandidates unmarshal m r) (fst (create_all marshal m ps empty_db)) = Ok l /\
    forall p, In p (reference_scan (snd (create_all marshal m ps empty_db)) (Subject r) (Resource r)) ->
              In p l.
Proof.
  intros Hrt.
  pose proof (create_all_inv marshal unmarshal m ps empty_db [] Hrt (create_inv_empty _ _ _)) as Hinv.
  simpl in Hinv.
  destruct (create_all marshal m ps empty_db) as [d created]. simpl.
  destruct Hinv as (Hup & Hvals & Hcr).
  unfold result. rewrite FindRequestCandidates_up by exact Hup. simpl.
  set (kr := lit_key m prefixResource (Resource r)).
  set (ks := lit_key m prefixSubject (Subject r)).
  destruct (decode_strs_complete unmarshal (map snd (map_to_list (hash_of d kr)))) as (rps & Hr & Hrin).
  { intros v Hv. apply hash_values_in in Hv as [f Hf]. exact (Hvals _ _ _ Hf). }
  destruct (decode_strs_complete unmarshal (map snd (map_to_list (hash_of d ks)))) as (sps & Hs & Hsin).
  { intros v Hv. apply hash_values_in in Hv as [f Hf]. exact (Hvals _ _ _ Hf). }
  rewrite Hr, Hs. eexists. split; [reflexivity|].
  intros p Hp. apply filter_In in Hp as [Hp Hsel].
  destruct (Hcr p Hp) as (Hrtp & _ & Hres & Hsub).
  apply orb_true_iff in Hsel as [Hsel | Hsel]; apply bool_decide_eq_true, list_elem_of_In in Hsel.
  - apply in_or_app. right. apply (Hsin (marshal p)); [|exact Hrtp].
    apply (in_hash_values _ (GetID p)). apply Hsub. apply in_map. exact Hsel.
  - apply in_or_app. left. apply (Hrin (marshal p)); [|exact Hrtp].
    apply (in_hash_values _ (GetID p)). apply Hres. apply in_map. exact Hsel.
Qed.

Lemma FindRequestCandidates_no_false_negatives_witness :
  Forall (fun p => flat_unmarshal (flat_marshal p) = Some p) find_policies /\
  exists l,
    result (FindRequestCandidates flat_unmarshal find_manager find_request)
      (fst (create_all flat_marshal find_manager find_policies empty_db)) = Ok l /\
    forall p, In p (reference_scan (snd (create_all flat_marshal find_manager find_policies empty_db))
                      (Subject find_request) (Resource find_request)) -> In p l.
Proof.
  assert (H : Forall (fun p => flat_unmarshal (flat_marshal p) = Some p) find_policies)
    by (repeat constructor).
  split; [exact H|].
  exact (FindRequestCandidates_no_false_negatives flat_marshal flat_unmarshal find_manager
           find_policies find_request H).
Defined.

(** ** Get and Delete *)

Lemma Get_absent unmarshal m id d :
  strs d !! policy_key m id = None -> result (Get unmarshal m id) d = Err ErrNotFound.
Proof.
  intros Hk. unfold result, Get. rewrite run_bind, run_call. cbn [exec fst snd label].
  destruct (down d); [reflexivity|]. by rewrite Hk.
Qed.

Lemma Delete_absent unmarshal m id d :
  strs d !! policy_key m id = None -> result (Delete unmarshal m id) d = Err ErrNotFound.
Proof.
  intros Hk. unfold result, Delete. rewrite run_bind, run_call. cbn [exec fst snd label].
  destruct (down d); [reflexivity|]. by rewrite Hk.
Qed.

(** C8: [Delete id] fails with [ErrNotFound] when no record is stored under
    the policy key of [id].  When Redis is reachable and the record decodes to
    a policy [q] with identifier [id], [Delete] succeeds: it reads the record,
    deletes the primary key, then removes field [id] from the hashmap of each
    resource and subject literal of [q], in this order; afterwards the record
    is gone, [Get id] and a second [Delete id] fail with [ErrNotFound], and no
    index entry of [q]'s literals holds [id]. *)
Theorem Delete_removes_record_and_index unmarshal m id :
  (forall d, strs d !! policy_key m id = None ->
     result (Delete unmarshal m id) d = Err ErrNotFound) /\
  (forall d b q,
     down d = false -> strs d !! policy_key m id = Some b ->
     unmarshal b = Some q -> GetID q = id ->
     let '(o, d', tr) := run (Delete unmarshal m id) d in
     o = Ok tt /\
     tr = OGet (policy_key m id) :: ODel (policy_key m id) ::
            map (fun v => OHDel (lit_key m prefixResource v) id) (GetResources q) ++
            map (fun v => OHDel (lit_key m prefixSubject v) id) (GetSubjects q) /\
     strs d' !! policy_key m id = None /\
     result (Get unmarshal m id) d' = Err ErrNotFound /\
     result (Delete unmarshal m id) d' = Err ErrNotFound /\
     (forall v, In v (GetResources q) -> hash_of d' (lit_key m prefixResource v) !! id = None) /\
     (forall v, In v (GetSubjects q) -> hash_of d' (lit_key m prefixSubject v) !! id = None)).
Proof.
  split; [intros d; apply Delete_absent|].
  intros d b q Hup Hk Hq Hid.
  unfold Delete. rewrite run_bind, run_call. cbn [exec fst snd label].
  rewrite Hup, Hk. cbn [fst snd]. rewrite Hq.
  rewrite run_bind, run_call. cbn [exec fst snd label]. rewrite Hup. cbn [fst snd check].
  set (d1 := mkDb (delete (policy_key m id) (strs d)) (delete (policy_key m id) (hashes d)) false).
  rewrite Hid.
  destruct (run_hdel_each m prefixResource (GetResources q) id d1)
    as (d2 & Hr2 & Hs2 & Hdn2 & Hin2 & Hout2); [reflexivity|].
  rewrite run_bind, Hr2. cbn [check].
  destruct (run_hdel_each m prefixSubject (GetSubjects q) id d2)
    as (d3 & Hr3 & Hs3 & Hdn3 & Hin3 & Hout3); [exact Hdn2|].
  rewrite Hr3.
  assert (Hgone : strs d3 !! policy_key m id = None)
    by (rewrite Hs3, Hs2; apply lookup_delete_eq).
  split; [reflexivity|]. split; [reflexivity|]. split; [exact Hgone|].
  split; [by apply Get_absent|]. split; [by apply Delete_absent|]. split.
  - intros v Hv.
    destruct (in_dec String.string_dec (lit_key m prefixResource v) (map (lit_key m prefixSubject) (GetSubjects q))) as [Hs|Hs].
    + by apply Hin3.
    + rewrite Hout3 by (right; exact Hs). apply Hin2. by apply in_map.
  - intros v Hv. apply Hin3. by apply in_map.
Qed.

Lemma Delete_removes_record_and_index_witness :
  down delete_db = false /\
  strs delete_db !! policy_key delete_manager "example-policy-1" = Some (flat_marshal policy_12) /\
  flat_unmarshal (flat_marshal policy_12) = Some policy_12 /\
  GetID policy_12 = "example-policy-1" /\
  let '(o, d', tr) := run (Delete flat_unmarshal delete_manager "example-policy-1") delete_db in
  o = Ok tt /\
  tr = OGet (policy_key delete_manager "example-policy-1") ::
         ODel (policy_key delete_manager "example-policy-1") ::
         map (fun v => OHDel (lit_key delete_manager prefixResource v) "example-policy-1") (GetResources policy_12) ++
         map (fun v => OHDel (lit_key delete_manager prefixSubject v) "example-policy-1") (GetSubjects policy_12) /\
  strs d' !! policy_key delete_manager "example-policy-1" = None /\
  result (Get flat_unmarshal delete_manager "example-policy-1") d' = Err ErrNotFound /\
  result (Delete flat_unmarshal delete_manager "example-policy-1") d' = Err ErrNotFound /\
  (forall v, In v (GetResources policy_12) ->
             hash_of d' (lit_key delete_manager prefixResource v) !! "example-policy-1" = None) /\
  (forall v, In v (GetSubjects policy_12) ->
             hash_of d' (lit_key delete_manager prefixSubject v) !! "example-policy-1" = None).
Proof.
  assert (H1 : down delete_db = false) by reflexivity.
  assert (H2 : strs delete_db !! policy_key delete_manager "example-policy-1" = Some (flat_marshal policy_12))
    by (vm_compute; reflexivity).
  assert (H3 : flat_unmarshal (flat_marshal policy_12) = Some policy_12) by (vm_compute; reflexivity).
  assert (H4 : GetID policy_12 = "example-policy-1") by reflexivity.
  split; [exact H1|]. split; [exact H2|]. split; [exact H3|]. split; [exact H4|].
  exact (proj2 (Delete_removes_record_and_index flat_unmarshal delete_manager "example-policy-1")
           delete_db (flat_marshal policy_12) policy_12 H1 H2 H3 H4).
Defined.

(** ** FindPoliciesForResource *)

(** C1 (code_bug): whatever the store holds, a successful
    [FindPoliciesForResource] returns nil: the decoded [policies] are
    discarded by [return nil, nil]. *)
Theorem FindPoliciesForResource_returns_nil unmarshal m resource d l :
  result (FindPoliciesForResource unmarshal m resource) d = Ok l -> l = [].
Proof.
  unfold result, FindPoliciesForResource. rewrite run_bind, run_call. cbn [exec fst snd label].
  destruct (down d); cbn; [discriminate|].
  destruct (decode_strs _ _); cbn; congruence.
Qed.

Lemma FindPoliciesForResource_returns_nil_witness :
  let d := final (Create flat_marshal resource_manager resource_policy) empty_db in
  result (FindPoliciesForResource flat_unmarshal resource_manager "exr1") d = Ok [] /\
  ([] : list Policy) = [].
Proof.
  intros d.
  assert (H : result (FindPoliciesForResource flat_unmarshal resource_manager "exr1") d = Ok [])
    by (vm_compute; reflexivity).
  split; [exact H|].
  exact (FindPoliciesForResource_returns_nil flat_unmarshal resource_manager "exr1" d [] H).
Defined.

(** At TestFindPoliciesForResource: the policy naming "exr1" is stored in the
    hashmap of "exr1", the sibling [FindPoliciesForSubject] on "ex1" returns
    it, and [FindPoliciesForResource "exr1"] returns nil. *)
Lemma FindPoliciesForResource_test_case :
  let d := final (Create flat_marshal resource_manager resource_policy) empty_db in
  hash_of d (lit_key resource_manager prefixResource "exr1") !! "test-policy-1" =
    Some (flat_marshal resource_policy) /\
  result (FindPoliciesForSubject flat_unmarshal resource_manager "ex1") d = Ok [resource_policy] /\
  result (FindPoliciesForResource flat_unmarshal resource_manager "exr1") d = Ok [].
Proof. vm_compute. repeat split. Qed.

(** ** Update *)

(** C2 (code_bug): at TestUpdate, after [Update] changes the subjects from
    {"1","2"} to {"2","3","4"}, [FindPoliciesForSubject "4"] returns the new
    policy, but [FindPoliciesForSubject "1"] still returns the policy, in its
    old version naming "1": [Update] only adds index entries. *)
Theorem Update_keeps_stale_index_entry :
  let d := final (Create flat_marshal update_manager policy_12) empty_db in
  let o := result (Update flat_marshal update_manager policy_234) d in
  let d' := final (Update flat_marshal update_manager policy_234) d in
  o = Ok tt /\
  result (Get flat_unmarshal update_manager "example-policy-1") d' = Ok policy_234 /\
  result (FindPoliciesForSubject flat_unmarshal update_manager "4") d' = Ok [policy_234] /\
  result (FindPoliciesForSubject flat_unmarshal update_manager "1") d' = Ok [policy_12].
Proof. vm_compute. repeat split. Qed.

(** ** FindRequestCandidates *)

(** C3 (counterexample): at TestFindRequestCandidate, test-policy-1 names
    both subject "ex1" and resource "exr1", and [FindRequestCandidates]
    returns it twice: there is no deduplication. *)
Lemma FindRequestCandidates_duplicates :
  let d := fst (create_all flat_marshal find_manager find_policies empty_db) in
  result (FindRequestCandidates flat_unmarshal find_manager find_request) d =
    Ok [test_policy "test-policy-1" ["ex1"; "ex2"] ["exr1"; "exr2"];
        test_policy "test-policy-1" ["ex1"; "ex2"] ["exr1"; "exr2"];
        test_policy "test-policy-2" ["ex1"; "ex2"] []] /\
  ~ NoDup [test_policy "test-policy-1" ["ex1"; "ex2"] ["exr1"; "exr2"];
           test_policy "test-policy-1" ["ex1"; "ex2"] ["exr1"; "exr2"];
           test_policy "test-policy-2" ["ex1"; "ex2"] []].
Proof.
  split; [vm_compute; reflexivity|].
  intros Hnd. inversion Hnd as [|? ? Hnin _]. apply Hnin. left.
Qed.

(** C3 (amended): [FindRequestCandidates] issues exactly two commands, the
    HGETALL of the resource hashmap and of the subject hashmap, and changes
    nothing.  It returns the policies decoded from the payloads stored in the
    resource hashmap followed by those of the subject hashmap, without reading
    the primary records and without deduplication; an undecodable payload
    fails the whole query with [ErrBadConversion], and an unreachable Redis
    with the transport error. *)
Theorem FindRequestCandidates_reads_index_payloads unmarshal m r d :
  (down d = false ->
   run (FindRequestCandidates unmarshal m r) d =
     (match decode_strs unmarshal (map snd (map_to_list (hash_of d (lit_key m prefixResource (Resource r))))) with
      | None => Err ErrBadConversion
      | Some rps =>
          match decode_strs unmarshal (map snd (map_to_list (hash_of d (lit_key m prefixSubject (Subject r))))) with
          | None => Err ErrBadConversion
          | Some sps => Ok (app rps sps)
          end
      end,
      d,
      [OHGetAll (lit_key m prefixResource (Resource r)); OHGetAll (lit_key m prefixSubject (Subject r))])) /\
  (down d = true -> result (FindRequestCandidates unmarshal m r) d = Err ErrConn).
Proof.
  split; [apply FindRequestCandidates_up|].
  intros Hdn. unfold result, FindRequestCandidates. do 3 (cbn; rewrite ?Hdn). reflexivity.
Qed.

Lemma FindRequestCandidates_reads_index_payloads_witness :
  let d := fst (create_all flat_marshal find_manager find_policies empty_db) in
  let bad := mkDb ∅ {[lit_key find_manager prefixResource "exr1" := {["x" := "garbage"]}]} false in
  let tp1 := test_policy "test-policy-1" ["ex1"; "ex2"] ["exr1"; "exr2"] in
  let tp2 := test_policy "test-policy-2" ["ex1"; "ex2"] [] in
  down d = false /\ down bad = false /\ down (mkDb ∅ ∅ true) = true /\
  run (FindRequestCandidates flat_unmarshal find_manager find_request) d =
    (Ok [tp1; tp1; tp2], d,
     [OHGetAll (lit_key find_manager prefixResource "exr1"); OHGetAll (lit_key find_manager prefixSubject "ex1")]) /\
  run (FindRequestCandidates flat_unmarshal find_manager find_request) bad =
    (Err ErrBadConversion, bad,
     [OHGetAll (lit_key find_manager prefixResource "exr1"); OHGetAll (lit_key find_manager prefixSubject "ex1")]) /\
  result (FindRequestCandidates flat_unmarshal find_manager find_request) (mkDb ∅ ∅ true) = Err ErrConn.
Proof.
  intros d bad tp1 tp2.
  assert (H1 : down d = false) by (vm_compute; reflexivity).
  assert (H2 : down bad = false) by reflexivity.
  split; [exact H1|]. split; [exact H2|]. split; [reflexivity|].
  split; [|split].
  - rewrite (proj1 (FindRequestCandidates_reads_index_payloads flat_unmarshal find_manager find_request d) H1).
    vm_compute. reflexivity.
  - rewrite (proj1 (FindRequestCandidates_reads_index_payloads flat_unmarshal find_manager find_request bad) H2).
    vm_compute. reflexivity.
  - exact (proj2 (FindRequestCandidates_reads_index_payloads flat_unmarshal find_manager find_request (mkDb ∅ ∅ true)) eq_refl).
Defined.

(** ** Concurrent Create *)

(** C4 (code_bug): [Create] checks with GET and writes with a separate SET.
    Two concurrent [Create] calls with the same identifier whose GETs both run
    before either SET both return nil, and [Get] afterwards returns the value
    of the later SET.  Run one after the other, the second one fails with
    [ErrPolicyExists]. *)
Theorem Create_race_both_succeed :
  let r := run_interleaved [0; 1; 0; 1]
             [Create flat_marshal create_manager policy_a; Create flat_marshal create_manager policy_b]
             empty_db in
  map returned (fst r) = [Some (Ok tt); Some (Ok tt)] /\
  result (Get flat_unmarshal create_manager "example-policy-2") (snd r) = Ok policy_b /\
  result (Create flat_marshal create_manager policy_b)
    (final (Create flat_marshal create_manager policy_a) empty_db) = Err ErrPolicyExists.
Proof. vm_compute. repeat split. Qed.

(** ** Get: transport errors and corrupt records *)

(** C5 (code_bug): when Redis is unreachable, [Get] returns [ErrNotFound]:
    every error of the GET command, not only [redis.Nil], is reported as
    absence. *)
Theorem Get_unavailable_is_not_found unmarshal m id d :
  down d = true -> result (Get unmarshal m id) d = Err ErrNotFound.
Proof.
  intros Hdn. unfold result, Get. rewrite run_bind, run_call. cbn [exec fst snd label].
  rewrite Hdn. reflexivity.
Qed.

Lemma Get_unavailable_is_not_found_witness :
  down (mkDb ∅ ∅ true) = true /\
  result (Get flat_unmarshal (NewRedisManager "get") "example-policy-1") (mkDb ∅ ∅ true) = Err ErrNotFound.
Proof.
  split; [reflexivity|].
  apply Get_unavailable_is_not_found. reflexivity.
Defined.

(** A stored payload that does not decode is reported as [ErrBadConversion],
    not as absence. *)
Lemma Get_corrupt unmarshal m id d b :
  down d = false -> strs d !! policy_key m id = Some b -> unmarshal b = None ->
  result (Get unmarshal m id) d = Err ErrBadConversion.
Proof.
  intros Hup Hk Hb. unfold result, Get. rewrite run_bind, run_call. cbn [exec fst snd label].
  rewrite Hup, Hk. cbn. by rewrite Hb.
Qed.

(** [Get] after a [Create] that found the key free returns the decoding of
    the payload [Create] wrote. *)
Lemma Get_after_Create marshal unmarshal m p d :
  down d = false -> strs d !! policy_key m (GetID p) = None ->
  result (Get unmarshal m (GetID p)) (final (Create marshal m p) d) =
    match unmarshal (marshal p) with Some q => Ok q | None => Err ErrBadConversion end.
Proof.
  intros Hup Hk.
  destruct (run_Create_fresh marshal m p d Hup Hk) as (d' & tr & Hrun & Hs & Hdn & _).
  unfold final. rewrite Hrun. cbn [fst snd].
  unfold result, Get. rewrite run_bind, run_call. cbn [exec fst snd label].
  rewrite Hdn, Hs, lookup_insert_eq. cbn. by destruct (unmarshal (marshal p)).
Qed.

(** ** GetAll *)

Lemma result_GetAll unmarshal m limit offset d :
  result (GetAll unmarshal m limit offset) d =
    match result (getall_load unmarshal m) d with
    | Ok policies => getall_page policies limit offset
    | Err e => Err e
    | Panic => Panic
    end.
Proof.
  unfold result, GetAll. rewrite run_bind.
  destruct (run (getall_load unmarshal m) d) as [[o d'] t]. reflexivity.
Qed.

Lemma wrap64_id z : (- 2 ^ 63 <= z < 2 ^ 63)%Z -> wrap64 z = z.
Proof.
  intros H. unfold wrap64. rewrite Z.mod_small by lia. lia.
Qed.

(** Away from int64 overflow the clamp returns the whole collection. *)
Lemma GetAll_clamps_without_overflow unmarshal m d ps limit offset :
  result (getall_load unmarshal m) d = Ok ps ->
  (Z.of_nat (length ps) < offset + limit < 2 ^ 63)%Z ->
  result (GetAll unmarshal m limit offset) d = Ok ps.
Proof.
  intros Hl Hlt. rewrite result_GetAll, Hl. unfold getall_page.
  rewrite wrap64_id by lia.
  destruct (Z.gtb_spec (offset + limit) (Z.of_nat (length ps))) as [_|]; [|lia].
  unfold go_slice. rewrite !Z.leb_refl.
  destruct (Z.leb_spec 0 (Z.of_nat (length ps))); [|lia].
  replace (Z.to_nat (Z.of_nat (length ps) - 0)) with (length ps) by lia.
  cbn -[firstn]. rewrite firstn_all. reflexivity.
Qed.

(** C9 (code_bug): with limit = offset = 2^62 on the TestDelete store, which
    holds one policy, the mathematical sum 2^63 exceeds the count 1, but the
    int64 sum wraps to -2^63, the clamp is skipped and [policies[2^62:2^62]]
    panics. *)
Theorem GetAll_overflow_panics :
  int64_range (2 ^ 62) /\ (2 ^ 62 + 2 ^ 62 > 1)%Z /\
  result (getall_load flat_unmarshal delete_manager) delete_db = Ok [policy_12] /\
  result (GetAll flat_unmarshal delete_manager (2 ^ 62) (2 ^ 62)) delete_db = Panic.
Proof.
  split; [unfold int64_range; lia|]. split; [lia|].
  split; vm_compute; reflexivity.
Qed.

(** C10 (counterexample): with offset = -1 and limit = 1 on the TestDelete
    store (one policy), offset <= limit and offset + limit <= 1, yet [GetAll]
    panics instead of returning records: the negative lower bound of
    [policies[-1:1]]. *)
Lemma GetAll_negative_offset_panics :
  (-1 <= 1)%Z /\ (-1 + 1 <= 1)%Z /\
  result (getall_load flat_unmarshal delete_manager) delete_db = Ok [policy_12] /\
  result (GetAll flat_unmarshal delete_manager 1 (-1)) delete_db = Panic.
Proof. split; [lia|]. split; [lia|]. split; vm_compute; reflexivity. Qed.

(** The decoded collection of [GetAll] is never empty: when KEYS matches no
    key, the bare MGET fails. *)
Lemma getall_load_nonempty unmarshal m d ps :
  result (getall_load unmarshal m) d = Ok ps -> ps <> [].
Proof.
  unfold result, getall_load. rewrite run_bind, run_call. cbn [exec fst snd label].
  destruct (down d) eqn:Hup; [discriminate|]. cbn [fst snd check].
  rewrite run_bind, run_call. cbn [exec fst snd label]. rewrite Hup.
  destruct (filter _ _) as [|k ks]; cbn [fst snd check run app]; [discriminate|].
  cbn [map decode_values]. destruct (strs d !! k) as [v|]; [|discriminate].
  destruct (unmarshal v); [|discriminate].
  destruct (decode_values unmarshal _); congruence.
Qed.

(** C10 (amended): a decoded collection holds n >= 1 policies (with none
    stored, the bare MGET fails first).  Without the clamp
    ([offset + limit <= n]), [GetAll] slices [policies[offset:limit]]: with
    [0 <= limit < offset] it panics, and with [0 <= offset <= limit] it
    returns the [limit - offset] records at positions [offset .. limit - 1]. *)
Theorem GetAll_slices_offset_to_limit unmarshal m d ps limit offset :
  result (getall_load unmarshal m) d = Ok ps ->
  (Z.of_nat (length ps) < 2 ^ 63)%Z ->
  ps <> [] /\
  ((0 <= limit < offset)%Z -> (offset + limit <= Z.of_nat (length ps))%Z ->
     result (GetAll unmarshal m limit offset) d = Panic) /\
  ((0 <= offset <= limit)%Z -> (offset + limit <= Z.of_nat (length ps))%Z ->
     result (GetAll unmarshal m limit offset) d =
       Ok (firstn (Z.to_nat (limit - offset)) (skipn (Z.to_nat offset) ps))).
Proof.
  intros Hl Hn. split; [exact (getall_load_nonempty unmarshal m d ps Hl)|].
  rewrite result_GetAll, Hl. unfold getall_page, go_slice.
  split; intros Hb Hs; rewrite wrap64_id by lia;
    destruct (Z.gtb_spec (offset + limit) (Z.of_nat (length ps))); try lia.
  - destruct (Z.leb_spec offset limit); [lia|]. by rewrite andb_false_r.
  - destruct (Z.leb_spec 0 offset); [|lia]. destruct (Z.leb_spec offset limit); [|lia].
    destruct (Z.leb_spec limit (Z.of_nat (length ps))); [|lia]. reflexivity.
Qed.

Lemma GetAll_slices_offset_to_limit_witness :
  let d := fst (create_all flat_marshal find_manager find_policies empty_db) in
  exists ps,
    result (getall_load flat_unmarshal find_manager) d = Ok ps /\
    (Z.of_nat (length ps) < 2 ^ 63)%Z /\
    result (GetAll flat_unmarshal find_manager 0 1) d = Panic /\
    result (GetAll flat_unmarshal find_manager 2 1) d =
      Ok (firstn (Z.to_nat (2 - 1)) (skipn (Z.to_nat 1) ps)).
Proof.
  intros d.
  destruct (result (getall_load flat_unmarshal find_manager) d) as [ps| |] eqn:Hl;
    [|vm_compute in Hl; discriminate..].
  assert (Hlen : length ps = 3) by (vm_compute in Hl; injection Hl as <-; reflexivity).
  exists ps. split; [reflexivity|]. rewrite Hlen. split; [lia|].
  destruct (GetAll_slices_offset_to_limit flat_unmarshal find_manager d ps 0 1 Hl
              ltac:(rewrite Hlen; lia)) as [_ [Hp _]].
  destruct (GetAll_slices_offset_to_limit flat_unmarshal find_manager d ps 2 1 Hl
              ltac:(rewrite Hlen; lia)) as [_ [_ Hq]].
  split; [apply Hp; rewrite ?Hlen; lia | apply Hq; rewrite ?Hlen; lia].
Defined.

(* ========================================================================= *)
(** * Further properties of the managers *)

(** ** Create and Update of the indexed manager *)

(** Create on an identifier whose primary key is present returns
    [ErrPolicyExists] after the single GET and changes nothing. *)
Theorem Create_existing_changes_nothing marshal m p d v :
  down d = false -> strs d !! policy_key m (GetID p) = Some v ->
  run (Create marshal m p) d = (Err ErrPolicyExists, d, [OGet (policy_key m (GetID p))]).
Proof. apply run_Create_exists. Qed.

Lemma Create_existing_changes_nothing_witness :
  down delete_db = false /\
  strs delete_db !! policy_key delete_manager (GetID policy_234) = Some (flat_marshal policy_12) /\
  run (Create flat_marshal delete_manager policy_234) delete_db =
    (Err ErrPolicyExists, delete_db, [OGet (policy_key delete_manager (GetID policy_234))]).
Proof.
  assert (H1 : down delete_db = false) by reflexivity.
  assert (H2 : strs delete_db !! policy_key delete_manager (GetID policy_234) = Some (flat_marshal policy_12))
    by (vm_compute; reflexivity).
  split; [exact H1|]. split; [exact H2|].
  exact (Create_existing_changes_nothing flat_marshal delete_manager policy_234 delete_db _ H1 H2).
Defined.

(** With Redis unreachable, the failed GET of [Create] is taken as "absent":
    [Create] goes on to the SET, which fails, and returns the transport
    error; nothing is written. *)
Theorem Create_unavailable marshal m p d :
  down d = true ->
  run (Create marshal m p) d =
    (Err ErrConn, d, [OGet (policy_key m (GetID p)); OSet (policy_key m (GetID p)) (marshal p)]).
Proof.
  intros Hdn. unfold Create. rewrite run_bind, run_call. cbn [exec fst snd label].
  rewrite Hdn. cbn [fst snd]. rewrite run_bind, run_call. cbn [exec fst snd label].
  rewrite Hdn. reflexivity.
Qed.

Lemma Create_unavailable_witness :
  down (mkDb ∅ ∅ true) = true /\
  run (Create flat_marshal create_manager policy_a) (mkDb ∅ ∅ true) =
    (Err ErrConn, mkDb ∅ ∅ true,
     [OGet (policy_key create_manager (GetID policy_a));
      OSet (policy_key create_manager (GetID policy_a)) (flat_marshal policy_a)]).
Proof. split; [reflexivity|]. apply Create_unavailable. reflexivity. Defined.

(** Update on an identifier without a primary record returns [ErrNotFound]
    after the single GET and changes nothing (also when Redis is
    unreachable). *)
Theorem Update_absent_changes_nothing marshal m p d :
  strs d !! policy_key m (GetID p) = None ->
  run (Update marshal m p) d = (Err ErrNotFound, d, [OGet (policy_key m (GetID p))]).
Proof.
  intros Hk. unfold Update. rewrite run_bind, run_call. cbn [exec fst snd label].
  destruct (down d); [reflexivity|]. rewrite Hk. reflexivity.
Qed.

Lemma Update_absent_changes_nothing_witness :
  strs empty_db !! policy_key update_manager (GetID policy_234) = None /\
  run (Update flat_marshal update_manager policy_234) empty_db =
    (Err ErrNotFound, empty_db, [OGet (policy_key update_manager (GetID policy_234))]).
Proof.
  assert (H : strs empty_db !! policy_key update_manager (GetID policy_234) = None) by reflexivity.
  split; [exact H|]. exact (Update_absent_changes_nothing flat_marshal update_manager policy_234 empty_db H).
Defined.

(** Which fields an HMSET loop changes: a field that differs afterwards is
    field [f] of a literal's hashmap, and now holds [p]. *)
Lemma hmset_each_keys m pre lits f p d d' tr :
  down d = false -> run (hmset_each m pre lits f p) d = (Ok tt, d', tr) ->
  forall k g v, hash_of d' k !! g = Some v ->
    hash_of d k !! g = Some v \/ (v = p /\ g = f /\ In k (map (lit_key m pre) lits)).
Proof.
  intros Hup Hrun k g v Hv.
  destruct (run_hmset_each m pre lits f p d Hup) as (d2 & Hr2 & _ & _ & Hin & Hout).
  rewrite Hr2 in Hrun. injection Hrun as <- _.
  destruct (decide (g = f)) as [->|Hg].
  - destruct (in_dec String.string_dec k (map (lit_key m pre) lits)) as [Hk|Hk].
    + rewrite Hin in Hv by exact Hk. injection Hv as <-. by right.
    + rewrite Hout in Hv by (right; exact Hk). by left.
  - rewrite Hout in Hv by (left; exact Hg). by left.
Qed.

(** An HMSET loop removes no field. *)
Lemma hmset_each_keeps m pre lits f p d d' tr :
  down d = false -> run (hmset_each m pre lits f p) d = (Ok tt, d', tr) ->
  forall k g, is_Some (hash_of d k !! g) -> is_Some (hash_of d' k !! g).
Proof.
  intros Hup Hrun k g Hg.
  destruct (run_hmset_each m pre lits f p d Hup) as (d2 & Hr2 & _ & _ & Hin & Hout).
  rewrite Hr2 in Hrun. injection Hrun as <- _.
  destruct (decide (g = f)) as [->|Hne].
  - destruct (in_dec String.string_dec k (map (lit_key m pre) lits)) as [Hk|Hk].
    + rewrite Hin by exact Hk. by eexists.
    + rewrite Hout by (right; exact Hk). exact Hg.
  - rewrite Hout by (left; exact Hne). exact Hg.
Qed.

(** With Redis reachable and a record stored under the key, [Update]
    overwrites the record with the new payload and writes the new payload
    under field [ID] of every new resource and subject literal; it removes no
    index field, so entries under literals the new version dropped stay. *)
Theorem Update_present_overwrites marshal m p d v :
  down d = false -> strs d !! policy_key m (GetID p) = Some v ->
  exists d' tr,
    run (Update marshal m p) d = (Ok tt, d', tr) /\
    strs d' = <[policy_key m (GetID p) := marshal p]> (strs d) /\
    (forall x, In x (GetResources p) ->
       hash_of d' (lit_key m prefixResource x) !! GetID p = Some (marshal p)) /\
    (forall x, In x (GetSubjects p) ->
       hash_of d' (lit_key m prefixSubject x) !! GetID p = Some (marshal p)) /\
    (forall k g, is_Some (hash_of d k !! g) -> is_Some (hash_of d' k !! g)).
Proof.
  intros Hup Hk. unfold Update. rewrite run_bind, run_call. cbn [exec fst snd label].
  rewrite Hup, Hk. cbn [fst snd].
  rewrite run_bind, run_call. cbn [exec fst snd label]. rewrite Hup. cbn [fst snd check].
  set (d1 := mkDb (<[policy_key m (GetID p):=marshal p]> (strs d)) (hashes d) false).
  destruct (run_hmset_each m prefixResource (GetResources p) (GetID p) (marshal p) d1)
    as (d2 & Hr2 & Hs2 & Hdn2 & Hin2 & Hout2); [reflexivity|].
  rewrite run_bind, Hr2. cbn [check].
  destruct (run_hmset_each m prefixSubject (GetSubjects p) (GetID p) (marshal p) d2)
    as (d3 & Hr3 & Hs3 & Hdn3 & Hin3 & Hout3); [exact Hdn2|].
  rewrite Hr3. eexists d3, _. split; [reflexivity|].
  split; [rewrite Hs3, Hs2; reflexivity|]. split; [|split].
  - intros x Hx. set (k := lit_key m prefixResource x).
    assert (Hk' : In k (map (lit_key m prefixResource) (GetResources p))) by (apply in_map; exact Hx).
    destruct (in_dec String.string_dec k (map (lit_key m prefixSubject) (GetSubjects p))).
    + by apply Hin3.
    + rewrite Hout3 by (right; assumption). by apply Hin2.
  - intros x Hx. apply Hin3. apply in_map. exact Hx.
  - intros k g Hg.
    apply (hmset_each_keeps m _ _ _ _ d2 d3 _ Hdn2 Hr3).
    exact (hmset_each_keeps m _ _ _ _ d1 d2 _ eq_refl Hr2 k g Hg).
Qed.

Lemma Update_present_overwrites_witness :
  down delete_db = false /\
  strs delete_db !! policy_key delete_manager (GetID policy_234) = Some (flat_marshal policy_12) /\
  exists d' tr,
    run (Update flat_marshal delete_manager policy_234) delete_db = (Ok tt, d', tr) /\
    strs d' = <[policy_key delete_manager (GetID policy_234) := flat_marshal policy_234]> (strs delete_db) /\
    (forall x, In x (GetResources policy_234) ->
       hash_of d' (lit_key delete_manager prefixResource x) !! GetID policy_234 = Some (flat_marshal policy_234)) /\
    (forall x, In x (GetSubjects policy_234) ->
       hash_of d' (lit_key delete_manager prefixSubject x) !! GetID policy_234 = Some (flat_marshal policy_234)) /\
    (forall k g, is_Some (hash_of delete_db k !! g) -> is_Some (hash_of d' k !! g)).
Proof.
  assert (H1 : down delete_db = false) by reflexivity.
  assert (H2 : strs delete_db !! policy_key delete_manager (GetID policy_234) = Some (flat_marshal policy_12))
    by (vm_compute; reflexivity).
  split; [exact H1|]. split; [exact H2|].
  exact (Update_present_overwrites flat_marshal delete_manager policy_234 delete_db _ H1 H2).
Defined.

(** ** Delete of a corrupt record *)

(** [Delete] of a record that does not decode returns [ErrBadConversion]
    after the GET and deletes nothing: neither the record nor any index
    entry. *)
Theorem Delete_corrupt_changes_nothing unmarshal m id d b :
  down d = false -> strs d !! policy_key m id = Some b -> unmarshal b = None ->
  run (Delete unmarshal m id) d = (Err ErrBadConversion, d, [OGet (policy_key m id)]).
Proof.
  intros Hup Hk Hb. unfold Delete. rewrite run_bind, run_call. cbn [exec fst snd label].
  rewrite Hup, Hk. cbn [fst snd]. rewrite Hb. reflexivity.
Qed.

Lemma Delete_corrupt_changes_nothing_witness :
  let d := mkDb (<[policy_key delete_manager "x" := "garbage"]> ∅) ∅ false in
  down d = false /\ strs d !! policy_key delete_manager "x" = Some "garbage" /\
  flat_unmarshal "garbage" = None /\
  run (Delete flat_unmarshal delete_manager "x") d = (Err ErrBadConversion, d, [OGet (policy_key delete_manager "x")]).
Proof.
  intros d.
  assert (H1 : down d = false) by reflexivity.
  assert (H2 : strs d !! policy_key delete_manager "x" = Some "garbage") by (vm_compute; reflexivity).
  assert (H3 : flat_unmarshal "garbage" = None) by (vm_compute; reflexivity).
  split; [exact H1|]. split; [exact H2|]. split; [exact H3|].
  exact (Delete_corrupt_changes_nothing flat_unmarshal delete_manager "x" d "garbage" H1 H2 H3).
Defined.

(** ** Key layout *)

Lemma string_app_cancel a x y : String.append a x = String.append a y -> x = y.
Proof. induction a as [|c a IH]; simpl; [auto|]. intros H. injection H. exact IH. Qed.

(** The primary keys and the two kinds of index keys of one manager are
    pairwise distinct: a record, a resource hashmap and a subject hashmap
    never share a Redis key, whatever the identifiers and literals. *)
Theorem key_spaces_disjoint m :
  (forall id v, policy_key m id <> lit_key m prefixResource v) /\
  (forall id v, policy_key m id <> lit_key m prefixSubject v) /\
  (forall v w, lit_key m prefixResource v <> lit_key m prefixSubject w).
Proof.
  unfold policy_key, lit_key, prefixKey, prefixPolicy, prefixResource, prefixSubject.
  split; [|split]; intros x y H; cbn in H; apply string_app_cancel in H; discriminate.
Qed.

(** Within one key space the key determines the literal (and so, with
    [pre = prefixPolicy], the identifier). *)
Theorem lit_key_injective m pre v w : lit_key m pre v = lit_key m pre w -> v = w.
Proof.
  unfold lit_key, prefixKey. cbn. intros H. apply string_app_cancel in H.
  apply (string_app_cancel (String "_" pre)) in H. injection H. auto.
Qed.

Lemma lit_key_injective_witness :
  lit_key find_manager prefixSubject "ex1" = lit_key find_manager prefixSubject "ex1" /\ "ex1" = "ex1".
Proof. split; [reflexivity|]. apply (lit_key_injective find_manager prefixSubject "ex1" "ex1"). reflexivity. Defined.

(** ** The KEYS pattern *)

Lemma tokenize_plain a p :
  no_glob_chars a = true -> tokenize (String.append a p) = lits a ++ tokenize p.
Proof.
  induction a as [|c a IH]; intros H; [reflexivity|].
  cbn [no_glob_chars] in H. apply andb_prop in H as [Hc Ha]. specialize (IH Ha).
  change (String.append (String c a) p) with (String c (String.append a p)).
  destruct c as [[] [] [] [] [] [] [] []]; simpl in Hc; try discriminate Hc;
    simpl; rewrite IH; reflexivity.
Qed.

Lemma match_lits a ts s : s <> "" ->
  match_tokens (lits a ++ ts) (String.append a s) = match_tokens ts s.
Proof.
  induction a as [|c a IH]; intros Hs; [reflexivity|].
  change (String.append (String c a) s) with (String c (String.append a s)).
  simpl. rewrite Ascii.eqb_refl. cbn [andb].
  destruct (String.append a s) eqn:E.
  - destruct a; [simpl in E; subst; contradiction | discriminate].
  - apply IH, Hs.
Qed.

Lemma match_lits_star a s : String.append a s <> "" ->
  match_tokens (lits a ++ [TStar]) (String.append a s) = true.
Proof.
  induction a as [|c a IH]; intros Hs.
  - destruct s; [contradiction|reflexivity].
  - change (String.append (String c a) s) with (String c (String.append a s)).
    simpl. rewrite Ascii.eqb_refl. cbn [andb].
    destruct (String.append a s) eqn:E.
    + destruct a; [reflexivity | discriminate].
    + apply IH. discriminate.
Qed.

(** A pattern [a ++ "*"] with a literal [a] matches every non-empty key
    that starts with [a]. *)
Lemma glob_prefix_star a s : no_glob_chars a = true -> String.append a s <> "" ->
  glob (String.append a "*") (String.append a s) = true.
Proof. intros Ha Hs. unfold glob. rewrite tokenize_plain by exact Ha. exact (match_lits_star a s Hs). Qed.

Lemma prefixKey3 a b c :
  prefixKey [a; b; c] = String.append a (String "_" (String.append b (String "_" c))).
Proof. reflexivity. Qed.

(** The KEYS pattern of [GetAll] matches every primary key... *)
Lemma keys_match_policy_key m id : no_glob_chars (keyPrefix m) = true ->
  keys_match (prefixKey [keyPrefix m; prefixPolicy; "*"]) (policy_key m id) = true.
Proof.
  intros HP. unfold keys_match. apply orb_true_intro. right.
  unfold glob, policy_key. rewrite !prefixKey3, tokenize_plain by exact HP.
  rewrite match_lits by discriminate.
  exact (match_lits_star "_policy_" id ltac:(discriminate)).
Qed.

(** ... and no key of an index hashmap. *)
Lemma keys_match_lit_key m pre x : pre = prefixResource \/ pre = prefixSubject ->
  no_glob_chars (keyPrefix m) = true ->
  keys_match (prefixKey [keyPrefix m; prefixPolicy; "*"]) (lit_key m pre x) = false.
Proof.
  intros Hpre HP. unfold keys_match. apply orb_false_intro.
  - apply String.eqb_neq. rewrite prefixKey3. destruct (keyPrefix m) as [|c [|c' P]]; discriminate.
  - unfold glob, lit_key. rewrite !prefixKey3, tokenize_plain by exact HP.
    rewrite match_lits by discriminate.
    destruct Hpre as [-> | ->]; reflexivity.
Qed.

(** The KEYS pattern of the full-scan manager matches every key under its
    prefix. *)
Lemma keys_match_getKey m id : no_glob_chars (keyPrefix m) = true ->
  keys_match (PlainManager.getKey m "*") (PlainManager.getKey m id) = true.
Proof.
  intros HP. unfold PlainManager.getKey. destruct (keyPrefix m) as [|c P] eqn:E.
  - reflexivity.
  - unfold keys_match. apply orb_true_intro. right.
    apply glob_prefix_star; [exact HP|]. discriminate.
Qed.

Lemma filter_none {A} (P : A -> Prop) `{forall x, Decision (P x)} (l : list A) :
  (forall x, In x l -> ~ P x) -> filter P l = [].
Proof.
  induction l as [|x l IH]; intros Hnone; [reflexivity|].
  rewrite filter_cons_False by (apply Hnone; left; reflexivity).
  apply IH. intros y Hy. apply Hnone. by right.
Qed.

Lemma filter_all {A} (P : A -> Prop) `{forall x, Decision (P x)} (l : list A) :
  (forall x, In x l -> P x) -> filter P l = l.
Proof.
  induction l as [|x l IH]; intros Hall; [reflexivity|].
  rewrite filter_cons_True by (apply Hall; left; reflexivity).
  f_equal. apply IH. intros y Hy. apply Hall. by right.
Qed.

Section DecodeValues.
Variable unmarshal : string -> option Policy.

Lemma decode_values_all vs :
  (forall x, In x vs -> exists v, x = Some v /\ is_Some (unmarshal v)) ->
  exists l, decode_values unmarshal vs = Ok l /\ length l = length vs /\
    forall q, In q l <-> exists v, In (Some v) vs /\ unmarshal v = Some q.
Proof.
  induction vs as [|x vs IH]; intros Hall; simpl.
  - exists []. split; [reflexivity|]. split; [reflexivity|]. intros q. split; [intros []|].
    intros (v & [] & _).
  - destruct (Hall x (or_introl eq_refl)) as (v & -> & [q0 Hq0]). rewrite Hq0.
    destruct IH as (l & Hl & Hlen & Hin); [intros y Hy; apply Hall; by right|].
    rewrite Hl. exists (q0 :: l). split; [reflexivity|]. split; [simpl; congruence|].
    intros q. split.
    + intros [<-|Hq]; [exists v; split; [left; reflexivity|exact Hq0]|].
      apply Hin in Hq as (w & Hw & Hwq). exists w. split; [by right|exact Hwq].
    + intros (w & [Hw|Hw] & Hwq).
      * injection Hw as <-. left. congruence.
      * right. apply Hin. by exists w.
Qed.

End DecodeValues.

(** ** The primary records after a sequence of Create calls *)

Section StrsInv.
Variable marshal : Policy -> string.
Variable m : RedisManager.

(** The string keys are exactly the primary keys of the created policies,
    each holding the payload of the [Create] that wrote it; created
    identifiers are distinct. *)
Definition strs_inv (created : list Policy) (d : db) : Prop :=
  down d = false /\
  (forall k v, strs d !! k = Some v ->
     exists q, In q created /\ k = policy_key m (GetID q) /\ v = marshal q) /\
  (forall q, In q created -> strs d !! policy_key m (GetID q) = Some (marshal q)) /\
  NoDup (map GetID created) /\
  size (strs d) = length created.

Lemma strs_inv_empty : strs_inv [] empty_db.
Proof.
  split; [reflexivity|]. split; [intros k v Hk; simpl in Hk; by rewrite lookup_empty in Hk|].
  split; [intros ? []|]. split; [constructor|]. apply map_size_empty.
Qed.

Lemma strs_inv_step created p d :
  strs_inv created d ->
  let '(o, d', _) := run (Create marshal m p) d in
  strs_inv (match o with Ok _ => created ++ [p] | _ => created end) d'.
Proof.
  intros (Hup & Hsk & Hsc & Hnd & Hsize).
  destruct (strs d !! policy_key m (GetID p)) as [v|] eqn:Hk.
  - rewrite (run_Create_exists marshal m p d v Hup Hk). repeat split; assumption.
  - destruct (run_Create_fresh marshal m p d Hup Hk) as (d' & tr & Hrun & Hs & Hdn & _).
    rewrite Hrun.
    assert (Hne : forall q, In q created -> policy_key m (GetID p) <> policy_key m (GetID q)).
    { intros q Hq Heq. pose proof (Hsc q Hq) as Hq'. rewrite <- Heq, Hk in Hq'. discriminate. }
    split; [exact Hdn|]. split; [|split; [|split]].
    + intros k w Hkw. rewrite Hs in Hkw.
      destruct (decide (policy_key m (GetID p) = k)) as [<-|Hkne].
      * rewrite lookup_insert_eq in Hkw. injection Hkw as <-.
        exists p. split; [apply in_or_app; right; left; reflexivity|]. split; reflexivity.
      * rewrite lookup_insert_ne in Hkw by exact Hkne.
        destruct (Hsk k w Hkw) as (q & Hq & Hk1 & Hk2). exists q.
        split; [apply in_or_app; by left|]. split; assumption.
    + intros q Hq. rewrite Hs. apply in_app_or in Hq as [Hq | [<- | []]].
      * rewrite lookup_insert_ne by (apply Hne, Hq). apply Hsc, Hq.
      * apply lookup_insert_eq.
    + rewrite map_app. apply NoDup_app. split; [exact Hnd|]. split; [|apply NoDup_singleton].
      intros x Hx Hx2. apply list_elem_of_singleton in Hx2. subst x.
      apply list_elem_of_In, in_map_iff in Hx as (q & Hid & Hq).
      apply (Hne q Hq). by rewrite Hid.
    + rewrite Hs, map_size_insert_None by exact Hk. rewrite length_app. simpl. lia.
Qed.

Lemma create_all_strs_inv ps d created :
  strs_inv created d ->
  strs_inv (created ++ snd (create_all marshal m ps d)) (fst (create_all marshal m ps d)).
Proof.
  revert d created. induction ps as [|p ps IH]; intros d created Hinv.
  - simpl. by rewrite app_nil_r.
  - cbn [create_all].
    pose proof (strs_inv_step created p d Hinv) as Hstep.
    destruct (run (Create marshal m p) d) as [[o d'] t].
    specialize (IH d' _ Hstep).
    destruct (create_all marshal m ps d') as [d'' cs]. simpl in IH |- *.
    destruct o; try exact IH. by rewrite <- app_assoc in IH.
Qed.

End StrsInv.

(** ** The index hashmaps after a sequence of Create calls *)

Lemma lit_key_inj m pre v w : lit_key m pre v = lit_key m pre w -> v = w.
Proof.
  unfold lit_key, prefixKey. cbn. intros H. apply string_app_cancel in H.
  apply (string_app_cancel (String "_" pre)) in H. injection H. auto.
Qed.

Lemma resource_subject_keys_differ m v w : lit_key m prefixResource v <> lit_key m prefixSubject w.
Proof.
  unfold lit_key, prefixKey, prefixResource, prefixSubject. cbn. intros H.
  apply string_app_cancel in H. discriminate.
Qed.

Lemma in_lit_keys m pre x lits : In (lit_key m pre x) (map (lit_key m pre) lits) <-> In x lits.
Proof.
  split; [|apply in_map]. intros Hx. apply in_map_iff in Hx as (y & Hy & Hin).
  apply lit_key_inj in Hy. by subst.
Qed.

Lemma decode_strs_sound unmarshal vs qs :
  decode_strs unmarshal vs = Some qs -> forall q, In q qs -> exists v, In v vs /\ unmarshal v = Some q.
Proof.
  revert qs. induction vs as [|v vs IH]; intros qs Hd q Hq; simpl in Hd.
  - injection Hd as <-. destruct Hq.
  - destruct (unmarshal v) as [p|] eqn:Hv; [|discriminate].
    destruct (decode_strs unmarshal vs) as [qs'|] eqn:Hd'; [|discriminate].
    injection Hd as <-. destruct Hq as [<-|Hq].
    + exists v. split; [left; reflexivity|exact Hv].
    + destruct (IH qs' eq_refl q Hq) as (w & Hw & Hwq). exists w. split; [by right|exact Hwq].
Qed.

(** Which fields a [Create] that found its key free can change: field
    [ID] of the hashmaps of the policy's literals, now holding its payload. *)
Lemma Create_fresh_hash_keys marshal m p d o d' tr :
  down d = false -> strs d !! policy_key m (GetID p) = None ->
  run (Create marshal m p) d = (o, d', tr) ->
  forall k g v, hash_of d' k !! g = Some v ->
    hash_of d k !! g = Some v \/
    (v = marshal p /\ g = GetID p /\
     (In k (map (lit_key m prefixResource) (GetResources p)) \/
      In k (map (lit_key m prefixSubject) (GetSubjects p)))).
Proof.
  intros Hup Hk Hrun. unfold Create in Hrun. rewrite run_bind, run_call in Hrun.
  cbn [exec fst snd label] in Hrun. rewrite Hup, Hk in Hrun. cbn [fst snd check app] in Hrun.
  rewrite run_bind, run_call in Hrun. cbn [exec fst snd label] in Hrun. rewrite Hup in Hrun.
  cbn [fst snd check] in Hrun.
  set (d1 := mkDb (<[policy_key m (GetID p):=marshal p]> (strs d)) (hashes d) false) in Hrun.
  destruct (run_hmset_each m prefixResource (GetResources p) (GetID p) (marshal p) d1)
    as (d2 & Hr2 & _ & Hdn2 & _ & _); [reflexivity|].
  rewrite run_bind, Hr2 in Hrun. cbn [check] in Hrun.
  destruct (run_hmset_each m prefixSubject (GetSubjects p) (GetID p) (marshal p) d2)
    as (d3 & Hr3 & _ & _ & _ & _); [exact Hdn2|].
  rewrite Hr3 in Hrun. injection Hrun as _ <- _.
  intros k g v Hv.
  destruct (hmset_each_keys m _ _ _ _ d2 d3 _ Hdn2 Hr3 k g v Hv) as [Hv2 | (-> & -> & Hin)].
  - destruct (hmset_each_keys m _ _ _ _ d1 d2 _ eq_refl Hr2 k g v Hv2) as [Hv1 | (-> & -> & Hin)].
    + left. exact Hv1.
    + right. split; [reflexivity|]. split; [reflexivity|]. by left.
  - right. split; [reflexivity|]. split; [reflexivity|]. by right.
Qed.

Section HashInv.
Variable marshal : Policy -> string.
Variable unmarshal : string -> option Policy.
Variable m : RedisManager.

(** Every index field is the payload of a created policy, stored under its
    identifier in the hashmap of one of its literals. *)
Definition hash_inv (created : list Policy) (d : db) : Prop :=
  forall k g v, hash_of d k !! g = Some v ->
    exists q, In q created /\ v = marshal q /\ g = GetID q /\
      (In k (map (lit_key m prefixResource) (GetResources q)) \/
       In k (map (lit_key m prefixSubject) (GetSubjects q))).

Lemma hash_inv_empty : hash_inv [] empty_db.
Proof.
  intros k g v Hv. unfold hash_of in Hv. simpl in Hv.
  rewrite lookup_empty in Hv. simpl in Hv. by rewrite lookup_empty in Hv.
Qed.

Lemma hash_inv_step created p d :
  down d = false -> hash_inv created d ->
  let '(o, d', _) := run (Create marshal m p) d in
  hash_inv (match o with Ok _ => created ++ [p] | _ => created end) d'.
Proof.
  intros Hup Hinv.
  destruct (strs d !! policy_key m (GetID p)) as [v|] eqn:Hk.
  - rewrite (run_Create_exists marshal m p d v Hup Hk). exact Hinv.
  - destruct (run_Create_fresh marshal m p d Hup Hk) as (d' & tr & Hrun & _).
    pose proof (Create_fresh_hash_keys marshal m p d _ _ _ Hup Hk Hrun) as Hkeys.
    rewrite Hrun. intros k g w Hw.
    destruct (Hkeys k g w Hw) as [Hw' | (-> & -> & Hin)].
    + destruct (Hinv k g w Hw') as (q & Hq & Hrest). exists q. split; [apply in_or_app; by left|exact Hrest].
    + exists p. split; [apply in_or_app; right; left; reflexivity|]. auto.
Qed.

Lemma create_all_hash_inv ps d created :
  down d = false -> hash_inv created d ->
  hash_inv (created ++ snd (create_all marshal m ps d)) (fst (create_all marshal m ps d)).
Proof.
  revert d created. induction ps as [|p ps IH]; intros d created Hup Hinv.
  - simpl. by rewrite app_nil_r.
  - cbn [create_all].
    pose proof (hash_inv_step created p d Hup Hinv) as Hstep.
    assert (Hup' : down (final (Create marshal m p) d) = false).
    { destruct (strs d !! policy_key m (GetID p)) as [v|] eqn:Hk.
      - unfold final. by rewrite (run_Create_exists marshal m p d v Hup Hk).
      - destruct (run_Create_fresh marshal m p d Hup Hk) as (d' & tr & Hrun & _ & Hdn & _).
        unfold final. by rewrite Hrun. }
    unfold final in Hup'.
    destruct (run (Create marshal m p) d) as [[o d'] t]. simpl in Hup'.
    specialize (IH d' _ Hup' Hstep).
    destruct (create_all marshal m ps d') as [d'' cs]. simpl in IH |- *.
    destruct o; try exact IH. by rewrite <- app_assoc in IH.
Qed.

(** With both invariants, the hashmap under key [k] decodes to exactly the
    created policies whose literal keys include [k]. *)
Lemma index_hash_exact created d k (P : Policy -> Prop) :
  create_inv marshal unmarshal m created d -> hash_inv created d ->
  (forall q, In q created ->
     (In k (map (lit_key m prefixResource) (GetResources q)) \/
      In k (map (lit_key m prefixSubject) (GetSubjects q))) <-> P q) ->
  exists qs, decode_strs unmarshal (map snd (map_to_list (hash_of d k))) = Some qs /\
    forall q, In q qs <-> In q created /\ P q.
Proof.
  intros (_ & Hvals & Hcr) Hh HP.
  destruct (decode_strs_complete unmarshal (map snd (map_to_list (hash_of d k)))) as (qs & Hd & Hin).
  { intros v Hv. apply hash_values_in in Hv as [f Hf]. exact (Hvals _ _ _ Hf). }
  exists qs. split; [exact Hd|]. intros q. split.
  - intros Hq. destruct (decode_strs_sound unmarshal _ _ Hd q Hq) as (v & Hv & Hvq).
    apply hash_values_in in Hv as [f Hf].
    destruct (Hh _ _ _ Hf) as (q' & Hq' & -> & _ & Hkq').
    destruct (Hcr q' Hq') as (Hrt & _). rewrite Hrt in Hvq. injection Hvq as <-.
    split; [exact Hq'|]. apply HP; assumption.
  - intros [Hq HPq]. destruct (Hcr q Hq) as (Hrt & _ & Hres & Hsub).
    apply (Hin (marshal q)); [|exact Hrt].
    apply (in_hash_values _ (GetID q)).
    destruct (proj2 (HP q Hq) HPq) as [Hk | Hk]; [apply Hres, Hk | apply Hsub, Hk].
Qed.

End HashInv.

(** ** GetAll after a sequence of Create calls *)

(** After a non-empty sequence of [Create] calls on an empty store (the codec
    round-tripping the policies, the key prefix free of glob characters, so
    that the KEYS pattern matches every primary key and no index key), the
    KEYS/MGET part of [GetAll] returns the created policies,
    each exactly once, in some order; [GetAll] with offset 0 and a limit
    above their number returns all of them. *)
Theorem GetAll_after_creates marshal unmarshal m ps :
  no_glob_chars (keyPrefix m) = true -> ps <> [] ->
  Forall (fun p => unmarshal (marshal p) = Some p) ps ->
  exists l,
    result (getall_load unmarshal m) (fst (create_all marshal m ps empty_db)) = Ok l /\
    Permutation l (snd (create_all marshal m ps empty_db)) /\
    (forall limit, (Z.of_nat (length l) < limit < 2 ^ 63)%Z ->
       result (GetAll unmarshal m limit 0) (fst (create_all marshal m ps empty_db)) = Ok l).
Proof.
  intros HP Hps Hrt.
  pose proof (create_all_inv marshal unmarshal m ps empty_db [] Hrt (create_inv_empty _ _ _)) as Hc.
  pose proof (create_all_strs_inv marshal m ps empty_db [] (strs_inv_empty marshal m)) as Hs.
  pose proof (create_all_hash_inv marshal m ps empty_db [] eq_refl (hash_inv_empty marshal m)) as Hh.
  assert (Hne : snd (create_all marshal m ps empty_db) <> []).
  { destruct ps as [|p ps']; [contradiction|]. cbn [create_all].
    destruct (run_Create_fresh marshal m p empty_db eq_refl ltac:(apply lookup_empty))
      as (d' & tr & Hrun & _).
    rewrite Hrun. destruct (create_all marshal m ps' d'). discriminate. }
  destruct (create_all marshal m ps empty_db) as [d created]. simpl in Hc, Hs, Hh, Hne |- *.
  destruct Hs as (Hup & Hsk & Hsc & Hnd & Hsize). destruct Hc as (_ & _ & Hcr).
  assert (Hkeys : filter (fun k => keys_match (prefixKey [keyPrefix m; prefixPolicy; "*"]) k = true)
                    (keyspace d) = map fst (map_to_list (strs d))).
  { unfold keyspace. rewrite filter_app.
    rewrite (filter_all _ (map fst (map_to_list (strs d)))).
    2:{ intros k Hk. apply in_map_iff in Hk as ([k' v] & <- & Hkv).
        apply list_elem_of_In, elem_of_map_to_list in Hkv.
        destruct (Hsk _ _ Hkv) as (q & _ & -> & _). apply keys_match_policy_key, HP. }
    rewrite filter_none; [apply app_nil_r|].
    intros k Hk. rewrite <- list_elem_of_In in Hk. apply list_elem_of_filter in Hk as [_ Hk].
    rewrite list_elem_of_In in Hk. apply in_map_iff in Hk as ([k' h] & <- & Hkh).
    rewrite <- list_elem_of_In in Hkh. apply list_elem_of_filter in Hkh as [Hhne Hkh].
    apply elem_of_map_to_list in Hkh. destruct (map_choose h Hhne) as (g & v & Hg).
    assert (Hhk : hash_of d k' !! g = Some v) by (unfold hash_of; rewrite Hkh; exact Hg).
    destruct (Hh k' g v Hhk) as (q & _ & _ & _ & [Hin|Hin]);
      apply in_map_iff in Hin as (x & <- & _);
      cbn [fst]; (rewrite keys_match_lit_key; [discriminate| |exact HP]); auto. }
  assert (Hres : result (getall_load unmarshal m) d =
            decode_values unmarshal (map (fun k => strs d !! k) (map fst (map_to_list (strs d))))).
  { unfold result, getall_load. rewrite run_bind, run_call. cbn [exec fst snd label]. rewrite Hup.
    cbn [fst snd check]. rewrite Hkeys, run_bind, run_call. cbn [exec fst snd label]. rewrite Hup.
    destruct (map fst (map_to_list (strs d))) eqn:Hnil; [|reflexivity].
    exfalso. apply (f_equal length) in Hnil. rewrite length_map, length_map_to_list, Hsize in Hnil.
    destruct created; [contradiction|discriminate]. }
  destruct (decode_values_all unmarshal (map (fun k => strs d !! k) (map fst (map_to_list (strs d)))))
    as (l & Hl & Hlen & Hin).
  { intros x Hx. apply in_map_iff in Hx as (k & <- & Hk).
    apply in_map_iff in Hk as ([k' v] & <- & Hkv).
    apply list_elem_of_In, elem_of_map_to_list in Hkv. exists v. split; [exact Hkv|].
    destruct (Hsk _ _ Hkv) as (q & Hq & _ & ->). destruct (Hcr q Hq) as (Hrtq & _).
    by eexists. }
  exists l. rewrite Hres, Hl.
  assert (Hmem : forall q, In q l <-> In q created).
  { intros q. rewrite Hin. split.
    - intros (v & Hv & Hvq). apply in_map_iff in Hv as (k & Hk & _).
      destruct (Hsk _ _ Hk) as (q' & Hq' & _ & ->). destruct (Hcr q' Hq') as (Hrtq & _).
      rewrite Hrtq in Hvq. injection Hvq as <-. exact Hq'.
    - intros Hq. exists (marshal q). split; [|exact (proj1 (Hcr q Hq))].
      apply in_map_iff. exists (policy_key m (GetID q)). split; [apply Hsc, Hq|].
      apply in_map_iff. exists (policy_key m (GetID q), marshal q). split; [reflexivity|].
      apply list_elem_of_In, elem_of_map_to_list. apply Hsc, Hq. }
  assert (HlenE : length l = length created)
    by (rewrite Hlen, !length_map, length_map_to_list; exact Hsize).
  assert (Hndc : NoDup created) by (apply NoDup_ListNoDup, (List.NoDup_map_inv GetID), NoDup_ListNoDup, Hnd).
  assert (Hndl : NoDup l).
  { apply NoDup_ListNoDup. apply (List.NoDup_incl_NoDup (l := created));
      [apply NoDup_ListNoDup, Hndc | lia | intros q Hq; apply Hmem, Hq]. }
  split; [reflexivity|]. split.
  - apply NoDup_Permutation; [exact Hndl | exact Hndc|]. intros q. rewrite !list_elem_of_In. apply Hmem.
  - intros limit Hlim. apply GetAll_clamps_without_overflow; [rewrite Hres, Hl; reflexivity | lia].
Qed.

Lemma GetAll_after_creates_witness :
  no_glob_chars (keyPrefix find_manager) = true /\ find_policies <> [] /\
  Forall (fun p => flat_unmarshal (flat_marshal p) = Some p) find_policies /\
  exists l,
    result (getall_load flat_unmarshal find_manager) (fst (create_all flat_marshal find_manager find_policies empty_db)) = Ok l /\
    Permutation l (snd (create_all flat_marshal find_manager find_policies empty_db)) /\
    (forall limit, (Z.of_nat (length l) < limit < 2 ^ 63)%Z ->
       result (GetAll flat_unmarshal find_manager limit 0) (fst (create_all flat_marshal find_manager find_policies empty_db)) = Ok l).
Proof.
  assert (H : Forall (fun p => flat_unmarshal (flat_marshal p) = Some p) find_policies)
    by (repeat constructor).
  split; [reflexivity|]. split; [discriminate|]. split; [exact H|].
  exact (GetAll_after_creates flat_marshal flat_unmarshal find_manager find_policies
           eq_refl ltac:(discriminate) H).
Defined.


(** ** Index queries after a sequence of Create calls *)

(** After a sequence of [Create] calls (the codec round-tripping the
    policies), [FindPoliciesForSubject s] succeeds and returns exactly the
    created policies that name subject [s]. *)
Theorem FindPoliciesForSubject_after_creates marshal unmarshal m ps s :
  Forall (fun p => unmarshal (marshal p) = Some p) ps ->
  exists l,
    result (FindPoliciesForSubject unmarshal m s) (fst (create_all marshal m ps empty_db)) = Ok l /\
    forall q, In q l <-> In q (snd (create_all marshal m ps empty_db)) /\ In s (GetSubjects q).
Proof.
  intros Hrt.
  pose proof (create_all_inv marshal unmarshal m ps empty_db [] Hrt (create_inv_empty _ _ _)) as Hc.
  pose proof (create_all_hash_inv marshal m ps empty_db [] eq_refl (hash_inv_empty marshal m)) as Hh.
  destruct (create_all marshal m ps empty_db) as [d created]. simpl in Hc, Hh |- *.
  destruct (index_hash_exact marshal unmarshal m created d (lit_key m prefixSubject s)
              (fun q => In s (GetSubjects q)) Hc Hh) as (qs & Hd & Hqs).
  { intros q _. rewrite in_lit_keys. split; [|by right].
    intros [Hr | Hs]; [|exact Hs].
    apply in_map_iff in Hr as (x & Hx & _). exfalso. exact (resource_subject_keys_differ m x s Hx). }
  destruct Hc as (Hup & _).
  exists qs. split; [|exact Hqs].
  unfold result, FindPoliciesForSubject. rewrite run_bind, run_call. cbn [exec fst snd label].
  rewrite Hup. cbn [fst snd check]. fold (lit_key m prefixSubject s). rewrite Hd. reflexivity.
Qed.

Lemma FindPoliciesForSubject_after_creates_witness :
  Forall (fun p => flat_unmarshal (flat_marshal p) = Some p) find_policies /\
  exists l,
    result (FindPoliciesForSubject flat_unmarshal find_manager "ex1")
      (fst (create_all flat_marshal find_manager find_policies empty_db)) = Ok l /\
    forall q, In q l <-> In q (snd (create_all flat_marshal find_manager find_policies empty_db)) /\
                         In "ex1" (GetSubjects q).
Proof.
  assert (H : Forall (fun p => flat_unmarshal (flat_marshal p) = Some p) find_policies)
    by (repeat constructor).
  split; [exact H|].
  exact (FindPoliciesForSubject_after_creates flat_marshal flat_unmarshal find_manager find_policies "ex1" H).
Defined.

(** After a sequence of [Create] calls, [FindRequestCandidates] on subject
    [s] and resource [r] succeeds and returns, up to repetitions and order,
    exactly the created policies naming [s] or [r]: no created policy is
    missed and nothing else is returned. *)
Theorem FindRequestCandidates_after_creates_exact marshal unmarshal m ps r :
  Forall (fun p => unmarshal (marshal p) = Some p) ps ->
  exists l,
    result (FindRequestCandidates unmarshal m r) (fst (create_all marshal m ps empty_db)) = Ok l /\
    forall q, In q l <-> In q (reference_scan (snd (create_all marshal m ps empty_db)) (Subject r) (Resource r)).
Proof.
  intros Hrt.
  pose proof (create_all_inv marshal unmarshal m ps empty_db [] Hrt (create_inv_empty _ _ _)) as Hc.
  pose proof (create_all_hash_inv marshal m ps empty_db [] eq_refl (hash_inv_empty marshal m)) as Hh.
  destruct (create_all marshal m ps empty_db) as [d created]. simpl in Hc, Hh |- *.
  destruct (index_hash_exact marshal unmarshal m created d (lit_key m prefixResource (Resource r))
              (fun q => In (Resource r) (GetResources q)) Hc Hh) as (rps & Hr & Hrps).
  { intros q _. rewrite in_lit_keys. split; [|by left].
    intros [Hx | Hx]; [exact Hx|].
    apply in_map_iff in Hx as (x & Hx & _). exfalso.
    exact (resource_subject_keys_differ m (Resource r) x (eq_sym Hx)). }
  destruct (index_hash_exact marshal unmarshal m created d (lit_key m prefixSubject (Subject r))
              (fun q => In (Subject r) (GetSubjects q)) Hc Hh) as (sps & Hs & Hsps).
  { intros q _. rewrite in_lit_keys. split; [|by right].
    intros [Hx | Hx]; [|exact Hx].
    apply in_map_iff in Hx as (x & Hx & _). exfalso. exact (resource_subject_keys_differ m x (Subject r) Hx). }
  destruct Hc as (Hup & _).
  exists (app rps sps). unfold result. rewrite FindRequestCandidates_up by exact Hup.
  rewrite Hr, Hs. split; [reflexivity|].
  intros q. rewrite in_app_iff, Hrps, Hsps. unfold reference_scan. rewrite filter_In, orb_true_iff.
  rewrite !bool_decide_eq_true, !list_elem_of_In. tauto.
Qed.

Lemma FindRequestCandidates_after_creates_exact_witness :
  Forall (fun p => flat_unmarshal (flat_marshal p) = Some p) find_policies /\
  exists l,
    result (FindRequestCandidates flat_unmarshal find_manager find_request)
      (fst (create_all flat_marshal find_manager find_policies empty_db)) = Ok l /\
    forall q, In q l <-> In q (reference_scan (snd (create_all flat_marshal find_manager find_policies empty_db))
                                 (Subject find_request) (Resource find_request)).
Proof.
  assert (H : Forall (fun p => flat_unmarshal (flat_marshal p) = Some p) find_policies)
    by (repeat constructor).
  split; [exact H|].
  exact (FindRequestCandidates_after_creates_exact flat_marshal flat_unmarshal find_manager find_policies find_request H).
Defined.

(* ------------------------------------------------------------------------- *)
(** ** The HSETNX manager *)

Lemma run_hash_Create marshal m p d :
  down d = false ->
  run (HashManager.Create marshal m p) d =
    match hash_of d (HashManager.redisPoliciesKey m) !! GetID p with
    | Some _ => (Err redisPolicyExists, d,
                 [OHSetNX (HashManager.redisPoliciesKey m) (GetID p) (marshal p)])
    | None => (Ok tt,
               mkDb (strs d) (<[HashManager.redisPoliciesKey m :=
                                <[GetID p := marshal p]> (hash_of d (HashManager.redisPoliciesKey m))]> (hashes d)) false,
               [OHSetNX (HashManager.redisPoliciesKey m) (GetID p) (marshal p)])
    end.
Proof.
  intros Hup. unfold HashManager.Create. rewrite run_bind, run_call. cbn [exec fst snd label].
  rewrite Hup. destruct (hash_of d _ !! GetID p); reflexivity.
Qed.

Lemma hash_Get_up unmarshal m id d :
  down d = false ->
  result (HashManager.Get unmarshal m id) d =
    match hash_of d (HashManager.redisPoliciesKey m) !! id with
    | Some v => HashManager.redisUnmarshalPolicy unmarshal v
    | None => Err redisNotFound
    end.
Proof.
  intros Hup. unfold result, HashManager.Get. rewrite run_bind, run_call. cbn [exec fst snd label].
  rewrite Hup. destruct (hash_of d _ !! id); reflexivity.
Qed.

(** Concurrent [Create] calls of the HSETNX manager with the same identifier
    cannot both succeed: whichever HSETNX runs first wins, the other call
    returns "Policy exists", and [Get] returns the winner's policy. *)
Theorem HashManager_Create_race_one_wins marshal unmarshal m p1 p2 d :
  down d = false -> GetID p1 = GetID p2 ->
  hash_of d (HashManager.redisPoliciesKey m) !! GetID p1 = None ->
  (let r := run_interleaved [0; 1] [HashManager.Create marshal m p1; HashManager.Create marshal m p2] d in
   map returned (fst r) = [Some (Ok tt); Some (Err redisPolicyExists)] /\
   result (HashManager.Get unmarshal m (GetID p1)) (snd r) =
     HashManager.redisUnmarshalPolicy unmarshal (marshal p1)) /\
  (let r := run_interleaved [1; 0] [HashManager.Create marshal m p1; HashManager.Create marshal m p2] d in
   map returned (fst r) = [Some (Err redisPolicyExists); Some (Ok tt)] /\
   result (HashManager.Get unmarshal m (GetID p1)) (snd r) =
     HashManager.redisUnmarshalPolicy unmarshal (marshal p2)).
Proof.
  intros Hup Hid Hk. unfold HashManager.Create. cbn [bind call].
  split; cbn [run_interleaved lookup list_lookup exec]; rewrite Hup.
  - rewrite Hk. cbn [run_interleaved lookup list_lookup insert list_insert exec down].
    rewrite hash_of_insert, decide_True by reflexivity.
    rewrite <- Hid, lookup_insert_eq. split; [reflexivity|]. cbn [fst snd].
    rewrite hash_Get_up by reflexivity. rewrite hash_of_insert, decide_True by reflexivity.
    by rewrite Hid, lookup_insert_eq.
  - rewrite <- Hid, Hk. cbn [run_interleaved lookup list_lookup insert list_insert exec down].
    rewrite hash_of_insert, decide_True by reflexivity.
    rewrite lookup_insert_eq. split; [reflexivity|]. cbn [fst snd].
    rewrite hash_Get_up by reflexivity. rewrite hash_of_insert, decide_True by reflexivity.
    by rewrite lookup_insert_eq.
Qed.

Lemma HashManager_Create_race_one_wins_witness :
  down empty_db = false /\ GetID policy_a = GetID policy_b /\
  hash_of empty_db (HashManager.redisPoliciesKey create_manager) !! GetID policy_a = None /\
  ((let r := run_interleaved [0; 1] [HashManager.Create flat_marshal create_manager policy_a;
                                     HashManager.Create flat_marshal create_manager policy_b] empty_db in
    map returned (fst r) = [Some (Ok tt); Some (Err redisPolicyExists)] /\
    result (HashManager.Get flat_unmarshal create_manager (GetID policy_a)) (snd r) =
      HashManager.redisUnmarshalPolicy flat_unmarshal (flat_marshal policy_a)) /\
   (let r := run_interleaved [1; 0] [HashManager.Create flat_marshal create_manager policy_a;
                                     HashManager.Create flat_marshal create_manager policy_b] empty_db in
    map returned (fst r) = [Some (Err redisPolicyExists); Some (Ok tt)] /\
    result (HashManager.Get flat_unmarshal create_manager (GetID policy_a)) (snd r) =
      HashManager.redisUnmarshalPolicy flat_unmarshal (flat_marshal policy_b))).
Proof.
  assert (H1 : down empty_db = false) by reflexivity.
  assert (H2 : GetID policy_a = GetID policy_b) by reflexivity.
  assert (H3 : hash_of empty_db (HashManager.redisPoliciesKey create_manager) !! GetID policy_a = None)
    by reflexivity.
  split; [exact H1|]. split; [exact H2|]. split; [exact H3|].
  exact (HashManager_Create_race_one_wins flat_marshal flat_unmarshal create_manager policy_a policy_b
           empty_db H1 H2 H3).
Defined.

(** [Get] of the HSETNX manager distinguishes absence from failure: an
    absent field gives "Not found", an unreachable Redis the transport
    error, and a payload that does not decode a JSON error. *)
Theorem HashManager_Get_errors unmarshal m id d :
  (down d = true -> result (HashManager.Get unmarshal m id) d = Err ErrConn) /\
  (down d = false -> hash_of d (HashManager.redisPoliciesKey m) !! id = None ->
     result (HashManager.Get unmarshal m id) d = Err redisNotFound) /\
  (forall v, down d = false -> hash_of d (HashManager.redisPoliciesKey m) !! id = Some v ->
     unmarshal v = None -> result (HashManager.Get unmarshal m id) d = Err ErrJSON).
Proof.
  split; [|split].
  - intros Hdn. unfold result, HashManager.Get. rewrite run_bind, run_call. cbn [exec fst snd label].
    rewrite Hdn. reflexivity.
  - intros Hup Hk. rewrite hash_Get_up by exact Hup. by rewrite Hk.
  - intros v Hup Hk Hv. rewrite hash_Get_up by exact Hup. rewrite Hk.
    unfold HashManager.redisUnmarshalPolicy. by rewrite Hv.
Qed.

Lemma HashManager_Get_errors_witness :
  let d := mkDb ∅ {[HashManager.redisPoliciesKey create_manager := {["x" := "garbage"]}]} false in
  (down (mkDb ∅ ∅ true) = true /\
   result (HashManager.Get flat_unmarshal create_manager "x") (mkDb ∅ ∅ true) = Err ErrConn) /\
  (down empty_db = false /\ hash_of empty_db (HashManager.redisPoliciesKey create_manager) !! "x" = None /\
   result (HashManager.Get flat_unmarshal create_manager "x") empty_db = Err redisNotFound) /\
  (down d = false /\ hash_of d (HashManager.redisPoliciesKey create_manager) !! "x" = Some "garbage" /\
   flat_unmarshal "garbage" = None /\
   result (HashManager.Get flat_unmarshal create_manager "x") d = Err ErrJSON).
Proof.
  intros d.
  assert (H1 : down (mkDb ∅ ∅ true) = true) by reflexivity.
  assert (H2 : down empty_db = false) by reflexivity.
  assert (H3 : hash_of empty_db (HashManager.redisPoliciesKey create_manager) !! "x" = None) by reflexivity.
  assert (H4 : down d = false) by reflexivity.
  assert (H5 : hash_of d (HashManager.redisPoliciesKey create_manager) !! "x" = Some "garbage")
    by (vm_compute; reflexivity).
  assert (H6 : flat_unmarshal "garbage" = None) by (vm_compute; reflexivity).
  split; [split; [exact H1|]|split; [split; [exact H2|]; split; [exact H3|]|]].
  - exact (proj1 (HashManager_Get_errors flat_unmarshal create_manager "x" _) H1).
  - exact (proj1 (proj2 (HashManager_Get_errors flat_unmarshal create_manager "x" _)) H2 H3).
  - split; [exact H4|]. split; [exact H5|]. split; [exact H6|].
    exact (proj2 (proj2 (HashManager_Get_errors flat_unmarshal create_manager "x" d)) "garbage" H4 H5 H6).
Defined.

(** [Delete] of the HSETNX manager, when Redis is reachable, succeeds
    whether or not the policy exists; afterwards [Get] returns "Not found",
    and every other field of the policies hash is unchanged.  When Redis is
    unreachable, the HDEL fails and [Delete] returns the transport error,
    changing nothing. *)
Theorem HashManager_Delete_idempotent unmarshal m id d :
  (down d = false ->
   let '(o, d', _) := run (HashManager.Delete m id) d in
   o = Ok tt /\
   result (HashManager.Get unmarshal m id) d' = Err redisNotFound /\
   (forall g, g <> id -> hash_of d' (HashManager.redisPoliciesKey m) !! g =
                        hash_of d (HashManager.redisPoliciesKey m) !! g)) /\
  (down d = true ->
   run (HashManager.Delete m id) d = (Err ErrConn, d, [OHDel (HashManager.redisPoliciesKey m) id])).
Proof.
  split; intros Hup; unfold HashManager.Delete; rewrite run_bind, run_call; cbn [exec fst snd label];
    rewrite Hup; cbn [fst snd check run app]; [|reflexivity].
  split; [reflexivity|]. split.
  - rewrite hash_Get_up by reflexivity. rewrite hash_of_insert, decide_True by reflexivity.
    by rewrite lookup_delete_eq.
  - intros g Hg. rewrite hash_of_insert, decide_True by reflexivity. by rewrite lookup_delete_ne.
Qed.

Lemma HashManager_Delete_idempotent_witness :
  let d := final (HashManager.Create flat_marshal create_manager policy_a)
             (final (HashManager.Create flat_marshal create_manager policy_12) empty_db) in
  let key := HashManager.redisPoliciesKey create_manager in
  down d = false /\ down (mkDb ∅ ∅ true) = true /\
  hash_of d key !! "example-policy-1" = Some (flat_marshal policy_12) /\
  hash_of d key !! "example-policy-2" = Some (flat_marshal policy_a) /\
  (let '(o, d', _) := run (HashManager.Delete create_manager "example-policy-1") d in
   o = Ok tt /\
   result (HashManager.Get flat_unmarshal create_manager "example-policy-1") d' = Err redisNotFound /\
   (forall g, g <> "example-policy-1" -> hash_of d' key !! g = hash_of d key !! g)) /\
  run (HashManager.Delete create_manager "example-policy-1") (mkDb ∅ ∅ true) =
    (Err ErrConn, mkDb ∅ ∅ true, [OHDel key "example-policy-1"]).
Proof.
  intros d key.
  assert (H1 : down d = false) by (vm_compute; reflexivity).
  assert (H2 : down (mkDb ∅ ∅ true) = true) by reflexivity.
  split; [exact H1|]. split; [exact H2|].
  split; [vm_compute; reflexivity|]. split; [vm_compute; reflexivity|]. split.
  - exact (proj1 (HashManager_Delete_idempotent flat_unmarshal create_manager "example-policy-1" d) H1).
  - exact (proj2 (HashManager_Delete_idempotent flat_unmarshal create_manager "example-policy-1" _) H2).
Defined.

Lemma scan_loop_pairs unmarshal (l : list (string * string)) :
  HashManager.scan_loop unmarshal (List.concat (map (fun fv => [fv.1; fv.2]) l)) =
    match decode_strs unmarshal (map snd l) with Some ps => Ok ps | None => Err ErrJSON end.
Proof.
  induction l as [|[f v] l IH]; [reflexivity|]. cbn [List.concat map fst snd app].
  cbn [HashManager.scan_loop]. rewrite IH. unfold HashManager.redisUnmarshalPolicy. cbn [decode_strs map snd].
  destruct (unmarshal v); [|reflexivity]. destruct (decode_strs unmarshal (map snd l)); reflexivity.
Qed.

(** [FindRequestCandidates] of the HSETNX manager ignores the request: it
    returns the decoding of every value of the policies hash (the iterator's
    odd elements), and a JSON error if one of them does not decode. *)
Theorem HashManager_FindRequestCandidates_all unmarshal m r d :
  down d = false ->
  run (HashManager.FindRequestCandidates unmarshal m r) d =
    (match decode_strs unmarshal (map snd (map_to_list (hash_of d (HashManager.redisPoliciesKey m)))) with
     | Some ps => Ok ps
     | None => Err ErrJSON
     end, d, [OHScan (HashManager.redisPoliciesKey m)]).
Proof.
  intros Hup. unfold HashManager.FindRequestCandidates. rewrite run_bind, run_call. cbn [exec fst snd label].
  rewrite Hup. cbn [fst snd run app]. by rewrite scan_loop_pairs.
Qed.

Lemma HashManager_FindRequestCandidates_all_witness :
  let d := final (HashManager.Create flat_marshal create_manager resource_policy) empty_db in
  down d = false /\
  run (HashManager.FindRequestCandidates flat_unmarshal create_manager find_request) d =
    (Ok [resource_policy], d, [OHScan (HashManager.redisPoliciesKey create_manager)]).
Proof.
  intros d. assert (H : down d = false) by reflexivity.
  split; [exact H|].
  rewrite (HashManager_FindRequestCandidates_all flat_unmarshal create_manager find_request d H).
  vm_compute. reflexivity.
Defined.

(* ------------------------------------------------------------------------- *)
(** ** The full-scan manager *)

Lemma plain_Get_up unmarshal m id d :
  down d = false ->
  result (PlainManager.Get unmarshal m id) d =
    match strs d !! PlainManager.getKey m id with
    | Some b => match unmarshal b with Some q => Ok q | None => Err ErrBadConversion end
    | None => Err ErrNotFound
    end.
Proof.
  intros Hup. unfold result, PlainManager.Get. rewrite run_bind, run_call. cbn [exec fst snd label].
  rewrite Hup. destruct (strs d !! _) as [b|]; [|reflexivity]. cbn. by destruct (unmarshal b).
Qed.

(** [Create] of the full-scan manager: on a taken key it returns
    [ErrPolicyExists] and changes nothing; on a free key (Redis reachable)
    it stores the payload, and [Get] then returns its decoding; with Redis
    unreachable it returns the transport error of the SET. *)
Theorem PlainManager_Create_outcomes marshal unmarshal m p d :
  (forall v, down d = false -> strs d !! PlainManager.getKey m (GetID p) = Some v ->
     run (PlainManager.Create marshal m p) d =
       (Err ErrPolicyExists, d, [OGet (PlainManager.getKey m (GetID p))])) /\
  (down d = false -> strs d !! PlainManager.getKey m (GetID p) = None ->
     result (PlainManager.Create marshal m p) d = Ok tt /\
     strs (final (PlainManager.Create marshal m p) d) =
       <[PlainManager.getKey m (GetID p) := marshal p]> (strs d) /\
     result (PlainManager.Get unmarshal m (GetID p)) (final (PlainManager.Create marshal m p) d) =
       match unmarshal (marshal p) with Some q => Ok q | None => Err ErrBadConversion end) /\
  (down d = true -> result (PlainManager.Create marshal m p) d = Err ErrConn).
Proof.
  split; [|split].
  - intros v Hup Hk. unfold PlainManager.Create. rewrite run_bind, run_call. cbn [exec fst snd label].
    rewrite Hup, Hk. reflexivity.
  - intros Hup Hk.
    assert (Hrun : run (PlainManager.Create marshal m p) d =
       (Ok tt, mkDb (<[PlainManager.getKey m (GetID p) := marshal p]> (strs d)) (hashes d) false,
        [OGet (PlainManager.getKey m (GetID p)); OSet (PlainManager.getKey m (GetID p)) (marshal p)])).
    { unfold PlainManager.Create. rewrite run_bind, run_call.
      cbn [exec fst snd label]. rewrite Hup, Hk. cbn [fst snd].
      rewrite run_bind, run_call. cbn [exec fst snd label]. rewrite Hup. reflexivity. }
    unfold final. unfold result at 1. rewrite Hrun. cbn [fst snd].
    split; [reflexivity|]. split; [reflexivity|].
    rewrite plain_Get_up by reflexivity. cbn [strs]. by rewrite lookup_insert_eq.
  - intros Hdn. unfold result, PlainManager.Create. rewrite run_bind, run_call. cbn [exec fst snd label].
    rewrite Hdn. cbn [fst snd]. rewrite run_bind, run_call. cbn [exec fst snd label]. rewrite Hdn.
    reflexivity.
Qed.

Lemma PlainManager_Create_outcomes_witness :
  let m := PlainManager.NewRedisManager "plain:" in
  let d1 := final (PlainManager.Create flat_marshal m policy_a) empty_db in
  (down d1 = false /\ strs d1 !! PlainManager.getKey m (GetID policy_b) = Some (flat_marshal policy_a) /\
   run (PlainManager.Create flat_marshal m policy_b) d1 =
     (Err ErrPolicyExists, d1, [OGet (PlainManager.getKey m (GetID policy_b))])) /\
  (down empty_db = false /\ strs empty_db !! PlainManager.getKey m (GetID policy_a) = None /\
   result (PlainManager.Create flat_marshal m policy_a) empty_db = Ok tt /\
   strs (final (PlainManager.Create flat_marshal m policy_a) empty_db) =
     <[PlainManager.getKey m (GetID policy_a) := flat_marshal policy_a]> (strs empty_db) /\
   result (PlainManager.Get flat_unmarshal m (GetID policy_a)) (final (PlainManager.Create flat_marshal m policy_a) empty_db) =
     match flat_unmarshal (flat_marshal policy_a) with Some q => Ok q | None => Err ErrBadConversion end) /\
  (down (mkDb ∅ ∅ true) = true /\
   result (PlainManager.Create flat_marshal m policy_a) (mkDb ∅ ∅ true) = Err ErrConn).
Proof.
  intros m d1.
  assert (H1 : down d1 = false) by reflexivity.
  assert (H2 : strs d1 !! PlainManager.getKey m (GetID policy_b) = Some (flat_marshal policy_a))
    by (vm_compute; reflexivity).
  assert (H3 : down empty_db = false) by reflexivity.
  assert (H4 : strs empty_db !! PlainManager.getKey m (GetID policy_a) = None) by reflexivity.
  assert (H5 : down (mkDb ∅ ∅ true) = true) by reflexivity.
  split; [|split].
  - split; [exact H1|]. split; [exact H2|].
    exact (proj1 (PlainManager_Create_outcomes flat_marshal flat_unmarshal m policy_b d1) _ H1 H2).
  - split; [exact H3|]. split; [exact H4|].
    exact (proj1 (proj2 (PlainManager_Create_outcomes flat_marshal flat_unmarshal m policy_a empty_db)) H3 H4).
  - split; [exact H5|].
    exact (proj2 (proj2 (PlainManager_Create_outcomes flat_marshal flat_unmarshal m policy_a (mkDb ∅ ∅ true))) H5).
Defined.

(** [Update] of the full-scan manager: without a stored record it returns
    [ErrNotFound] and writes nothing; with one (Redis reachable) it replaces
    the payload, and [Get] then returns the decoding of the new one. *)
Theorem PlainManager_Update_outcomes marshal unmarshal m p d :
  (strs d !! PlainManager.getKey m (GetID p) = None ->
     run (PlainManager.Update marshal m p) d =
       (Err ErrNotFound, d, [OGet (PlainManager.getKey m (GetID p))])) /\
  (forall v, down d = false -> strs d !! PlainManager.getKey m (GetID p) = Some v ->
     run (PlainManager.Update marshal m p) d =
       (Ok tt, mkDb (<[PlainManager.getKey m (GetID p) := marshal p]> (strs d)) (hashes d) false,
        [OGet (PlainManager.getKey m (GetID p)); OSet (PlainManager.getKey m (GetID p)) (marshal p)]) /\
     result (PlainManager.Get unmarshal m (GetID p)) (final (PlainManager.Update marshal m p) d) =
       match unmarshal (marshal p) with Some q => Ok q | None => Err ErrBadConversion end).
Proof.
  split.
  - intros Hk. unfold PlainManager.Update. rewrite run_bind, run_call. cbn [exec fst snd label].
    destruct (down d); [reflexivity|]. rewrite Hk. reflexivity.
  - intros v Hup Hk.
    assert (Hrun : run (PlainManager.Update marshal m p) d =
       (Ok tt, mkDb (<[PlainManager.getKey m (GetID p) := marshal p]> (strs d)) (hashes d) false,
        [OGet (PlainManager.getKey m (GetID p)); OSet (PlainManager.getKey m (GetID p)) (marshal p)])).
    { unfold PlainManager.Update. rewrite run_bind, run_call. cbn [exec fst snd label].
      rewrite Hup, Hk. cbn [fst snd]. rewrite run_bind, run_call. cbn [exec fst snd label]. rewrite Hup.
      reflexivity. }
    split; [exact Hrun|]. unfold final. rewrite Hrun. cbn [fst snd].
    rewrite plain_Get_up by reflexivity. cbn [strs]. by rewrite lookup_insert_eq.
Qed.

Lemma PlainManager_Update_outcomes_witness :
  let m := PlainManager.NewRedisManager "plain:" in
  let d1 := final (PlainManager.Create flat_marshal m policy_12) empty_db in
  (strs empty_db !! PlainManager.getKey m (GetID policy_234) = None /\
   run (PlainManager.Update flat_marshal m policy_234) empty_db =
     (Err ErrNotFound, empty_db, [OGet (PlainManager.getKey m (GetID policy_234))])) /\
  (down d1 = false /\ strs d1 !! PlainManager.getKey m (GetID policy_234) = Some (flat_marshal policy_12) /\
   run (PlainManager.Update flat_marshal m policy_234) d1 =
     (Ok tt, mkDb (<[PlainManager.getKey m (GetID policy_234) := flat_marshal policy_234]> (strs d1)) (hashes d1) false,
      [OGet (PlainManager.getKey m (GetID policy_234));
       OSet (PlainManager.getKey m (GetID policy_234)) (flat_marshal policy_234)]) /\
   result (PlainManager.Get flat_unmarshal m (GetID policy_234)) (final (PlainManager.Update flat_marshal m policy_234) d1) =
     match flat_unmarshal (flat_marshal policy_234) with Some q => Ok q | None => Err ErrBadConversion end).
Proof.
  intros m d1.
  assert (H1 : strs empty_db !! PlainManager.getKey m (GetID policy_234) = None) by reflexivity.
  assert (H2 : down d1 = false) by reflexivity.
  assert (H3 : strs d1 !! PlainManager.getKey m (GetID policy_234) = Some (flat_marshal policy_12))
    by (vm_compute; reflexivity).
  split.
  - split; [exact H1|]. exact (proj1 (PlainManager_Update_outcomes flat_marshal flat_unmarshal m policy_234 empty_db) H1).
  - split; [exact H2|]. split; [exact H3|].
    exact (proj2 (PlainManager_Update_outcomes flat_marshal flat_unmarshal m policy_234 d1) _ H2 H3).
Defined.

(** [Delete] of the full-scan manager: without a stored record it returns
    [ErrNotFound] and deletes nothing; with one (Redis reachable) it deletes
    the key without decoding it, after which [Get] and [Delete] return
    [ErrNotFound]. *)
Theorem PlainManager_Delete_outcomes unmarshal m id d :
  (strs d !! PlainManager.getKey m id = None ->
     run (PlainManager.Delete m id) d = (Err ErrNotFound, d, [OGet (PlainManager.getKey m id)])) /\
  (forall v, down d = false -> strs d !! PlainManager.getKey m id = Some v ->
     let '(o, d', tr) := run (PlainManager.Delete m id) d in
     o = Ok tt /\ tr = [OGet (PlainManager.getKey m id); ODel (PlainManager.getKey m id)] /\
     strs d' = delete (PlainManager.getKey m id) (strs d) /\
     result (PlainManager.Get unmarshal m id) d' = Err ErrNotFound /\
     result (PlainManager.Delete m id) d' = Err ErrNotFound).
Proof.
  assert (Habs : forall d, strs d !! PlainManager.getKey m id = None ->
     run (PlainManager.Delete m id) d = (Err ErrNotFound, d, [OGet (PlainManager.getKey m id)])).
  { intros d0 Hk. unfold PlainManager.Delete. rewrite run_bind, run_call. cbn [exec fst snd label].
    destruct (down d0); [reflexivity|]. rewrite Hk. reflexivity. }
  split; [apply Habs|].
  intros v Hup Hk. unfold PlainManager.Delete at 1. rewrite run_bind, run_call. cbn [exec fst snd label].
  rewrite Hup, Hk. cbn [fst snd]. rewrite run_bind, run_call. cbn [exec fst snd label]. rewrite Hup.
  cbn [fst snd check run app].
  split; [reflexivity|]. split; [reflexivity|]. split; [reflexivity|]. split.
  - rewrite plain_Get_up by reflexivity. cbn [strs]. by rewrite lookup_delete_eq.
  - unfold result. rewrite Habs by (cbn [strs]; apply lookup_delete_eq). reflexivity.
Qed.

Lemma PlainManager_Delete_outcomes_witness :
  let m := PlainManager.NewRedisManager "plain:" in
  let d1 := final (PlainManager.Create flat_marshal m policy_12) empty_db in
  (strs empty_db !! PlainManager.getKey m "example-policy-1" = None /\
   run (PlainManager.Delete m "example-policy-1") empty_db =
     (Err ErrNotFound, empty_db, [OGet (PlainManager.getKey m "example-policy-1")])) /\
  (down d1 = false /\ strs d1 !! PlainManager.getKey m "example-policy-1" = Some (flat_marshal policy_12) /\
   let '(o, d', tr) := run (PlainManager.Delete m "example-policy-1") d1 in
   o = Ok tt /\ tr = [OGet (PlainManager.getKey m "example-policy-1"); ODel (PlainManager.getKey m "example-policy-1")] /\
   strs d' = delete (PlainManager.getKey m "example-policy-1") (strs d1) /\
   result (PlainManager.Get flat_unmarshal m "example-policy-1") d' = Err ErrNotFound /\
   result (PlainManager.Delete m "example-policy-1") d' = Err ErrNotFound).
Proof.
  intros m d1.
  assert (H1 : strs empty_db !! PlainManager.getKey m "example-policy-1" = None) by reflexivity.
  assert (H2 : down d1 = false) by reflexivity.
  assert (H3 : strs d1 !! PlainManager.getKey m "example-policy-1" = Some (flat_marshal policy_12))
    by (vm_compute; reflexivity).
  split.
  - split; [exact H1|]. exact (proj1 (PlainManager_Delete_outcomes flat_unmarshal m "example-policy-1" empty_db) H1).
  - split; [exact H2|]. split; [exact H3|].
    exact (proj2 (PlainManager_Delete_outcomes flat_unmarshal m "example-policy-1" d1) _ H2 H3).
Defined.

(** ** The full-scan manager after a sequence of Create calls *)

(** The test loop for the full-scan manager: [Create] each policy in turn,
    keeping those whose [Create] returned nil. *)
Fixpoint plain_create_all (marshal : Policy -> string) (m : RedisManager)
    (ps : list Policy) (d : db) : db * list Policy :=
  match ps with
  | [] => (d, [])
  | p :: ps' =>
      let '(o, d', _) := run (PlainManager.Create marshal m p) d in
      let '(d'', cs) := plain_create_all marshal m ps' d' in
      (d'', match o with Ok _ => p :: cs | _ => cs end)
  end.

Lemma run_plain_Create_exists marshal m p d v :
  down d = false -> strs d !! PlainManager.getKey m (GetID p) = Some v ->
  run (PlainManager.Create marshal m p) d = (Err ErrPolicyExists, d, [OGet (PlainManager.getKey m (GetID p))]).
Proof.
  intros Hup Hk. unfold PlainManager.Create. rewrite run_bind, run_call. cbn [exec fst snd label].
  rewrite Hup, Hk. reflexivity.
Qed.

Lemma run_plain_Create_fresh marshal m p d :
  down d = false -> strs d !! PlainManager.getKey m (GetID p) = None ->
  run (PlainManager.Create marshal m p) d =
    (Ok tt, mkDb (<[PlainManager.getKey m (GetID p) := marshal p]> (strs d)) (hashes d) false,
     [OGet (PlainManager.getKey m (GetID p)); OSet (PlainManager.getKey m (GetID p)) (marshal p)]).
Proof.
  intros Hup Hk. unfold PlainManager.Create. rewrite run_bind, run_call.
  cbn [exec fst snd label]. rewrite Hup, Hk. cbn [fst snd].
  rewrite run_bind, run_call. cbn [exec fst snd label]. rewrite Hup. reflexivity.
Qed.

Lemma getall_page_whole (ps : list Policy) limit offset :
  (Z.of_nat (length ps) < offset + limit < 2 ^ 63)%Z -> getall_page ps limit offset = Ok ps.
Proof.
  intros Hlt. unfold getall_page. rewrite wrap64_id by lia.
  destruct (Z.gtb_spec (offset + limit) (Z.of_nat (length ps))) as [_|]; [|lia].
  unfold go_slice. rewrite !Z.leb_refl.
  destruct (Z.leb_spec 0 (Z.of_nat (length ps))); [|lia].
  replace (Z.to_nat (Z.of_nat (length ps) - 0)) with (length ps) by lia.
  cbn -[firstn]. rewrite firstn_all. reflexivity.
Qed.

Section PlainInv.
Variable marshal : Policy -> string.
Variable unmarshal : string -> option Policy.
Variable m : RedisManager.

Definition plain_inv (created : list Policy) (d : db) : Prop :=
  down d = false /\
  (forall k v, strs d !! k = Some v ->
     exists q, In q created /\ k = PlainManager.getKey m (GetID q) /\ v = marshal q) /\
  (forall q, In q created ->
     strs d !! PlainManager.getKey m (GetID q) = Some (marshal q) /\ unmarshal (marshal q) = Some q) /\
  NoDup (map GetID created) /\
  size (strs d) = length created.

Lemma plain_inv_empty : plain_inv [] empty_db.
Proof.
  split; [reflexivity|]. split; [intros k v Hk; simpl in Hk; by rewrite lookup_empty in Hk|].
  split; [intros ? []|]. split; [constructor|]. apply map_size_empty.
Qed.

Lemma plain_inv_step created p d :
  unmarshal (marshal p) = Some p -> plain_inv created d ->
  let '(o, d', _) := run (PlainManager.Create marshal m p) d in
  plain_inv (match o with Ok _ => created ++ [p] | _ => created end) d'.
Proof.
  intros Hrt (Hup & Hsk & Hsc & Hnd & Hsize).
  destruct (strs d !! PlainManager.getKey m (GetID p)) as [v|] eqn:Hk.
  - rewrite (run_plain_Create_exists marshal m p d v Hup Hk).
    split; [exact Hup|]. split; [exact Hsk|]. split; [exact Hsc|]. split; assumption.
  - rewrite (run_plain_Create_fresh marshal m p d Hup Hk). unfold plain_inv. cbn [strs down].
    assert (Hne : forall q, In q created -> PlainManager.getKey m (GetID p) <> PlainManager.getKey m (GetID q)).
    { intros q Hq Heq. destruct (Hsc q Hq) as (Hq' & _). rewrite <- Heq, Hk in Hq'. discriminate. }
    split; [reflexivity|]. split; [|split; [|split]].
    + intros k w Hkw.
      destruct (decide (PlainManager.getKey m (GetID p) = k)) as [<-|Hkne].
      * rewrite lookup_insert_eq in Hkw. injection Hkw as <-.
        exists p. split; [apply in_or_app; right; left; reflexivity|]. split; reflexivity.
      * rewrite lookup_insert_ne in Hkw by exact Hkne.
        destruct (Hsk k w Hkw) as (q & Hq & Hk1 & Hk2). exists q.
        split; [apply in_or_app; by left|]. split; assumption.
    + intros q Hq. apply in_app_or in Hq as [Hq | [<- | []]].
      * rewrite lookup_insert_ne by (apply Hne, Hq). apply Hsc, Hq.
      * split; [apply lookup_insert_eq|exact Hrt].
    + rewrite map_app. apply NoDup_app. split; [exact Hnd|]. split; [|apply NoDup_singleton].
      intros x Hx Hx2. apply list_elem_of_singleton in Hx2. subst x.
      apply list_elem_of_In, in_map_iff in Hx as (q & Hid & Hq).
      apply (Hne q Hq). by rewrite Hid.
    + rewrite map_size_insert_None by exact Hk. rewrite length_app. simpl. lia.
Qed.

Lemma plain_create_all_inv ps d created :
  Forall (fun p => unmarshal (marshal p) = Some p) ps -> plain_inv created d ->
  plain_inv (created ++ snd (plain_create_all marshal m ps d)) (fst (plain_create_all marshal m ps d)).
Proof.
  revert d created. induction ps as [|p ps IH]; intros d created Hrt Hinv.
  - simpl. by rewrite app_nil_r.
  - cbn [plain_create_all]. inversion Hrt as [|? ? Hp Hps]; subst.
    pose proof (plain_inv_step created p d Hp Hinv) as Hstep.
    destruct (run (PlainManager.Create marshal m p) d) as [[o d'] t].
    specialize (IH d' _ Hps Hstep).
    destruct (plain_create_all marshal m ps d') as [d'' cs]. simpl in IH |- *.
    destruct o; try exact IH. by rewrite <- app_assoc in IH.
Qed.

End PlainInv.

(** The full-scan manager writes no hashmap. *)
Lemma plain_create_all_hashes marshal m ps d :
  down d = false -> hashes (fst (plain_create_all marshal m ps d)) = hashes d.
Proof.
  revert d. induction ps as [|p ps IH]; intros d Hup; [reflexivity|]. cbn [plain_create_all].
  destruct (strs d !! PlainManager.getKey m (GetID p)) as [v|] eqn:Hk.
  - rewrite (run_plain_Create_exists marshal m p d v Hup Hk).
    pose proof (IH d Hup) as IH'. destruct (plain_create_all marshal m ps d). exact IH'.
  - rewrite (run_plain_Create_fresh marshal m p d Hup Hk).
    pose proof (IH (mkDb (<[PlainManager.getKey m (GetID p) := marshal p]> (strs d)) (hashes d) false)
                  eq_refl) as IH'.
    destruct (plain_create_all marshal m ps _). exact IH'.
Qed.

(** After a non-empty sequence of [Create] calls on the full-scan manager,
    from an empty store (the codec round-tripping the policies, the key
    prefix free of glob characters), [FindRequestCandidates] returns, for every
    request, the same list: all created policies, each once, in some order.
    [GetAll] with offset 0 and a limit above their number returns it too. *)
Theorem PlainManager_scan_after_creates marshal unmarshal m ps :
  no_glob_chars (keyPrefix m) = true -> ps <> [] ->
  Forall (fun p => unmarshal (marshal p) = Some p) ps ->
  exists l,
    (forall r, result (PlainManager.FindRequestCandidates unmarshal m r)
                 (fst (plain_create_all marshal m ps empty_db)) = Ok l) /\
    Permutation l (snd (plain_create_all marshal m ps empty_db)) /\
    (forall limit, (Z.of_nat (length l) < limit < 2 ^ 63)%Z ->
       result (PlainManager.GetAll unmarshal m limit 0) (fst (plain_create_all marshal m ps empty_db)) = Ok l).
Proof.
  intros HP Hps Hrt.
  pose proof (plain_create_all_inv marshal unmarshal m ps empty_db [] Hrt (plain_inv_empty marshal unmarshal m)) as Hs.
  pose proof (plain_create_all_hashes marshal m ps empty_db eq_refl) as Hhash.
  assert (Hne : snd (plain_create_all marshal m ps empty_db) <> []).
  { destruct ps as [|p ps']; [contradiction|]. cbn [plain_create_all].
    rewrite (run_plain_Create_fresh marshal m p empty_db eq_refl ltac:(apply lookup_empty)).
    destruct (plain_create_all marshal m ps' _). discriminate. }
  destruct (plain_create_all marshal m ps empty_db) as [d created]. simpl in Hs, Hhash, Hne |- *.
  destruct Hs as (Hup & Hsk & Hsc & Hnd & Hsize).
  assert (Hkeys : filter (fun k => keys_match (PlainManager.getKey m "*") k = true) (keyspace d)
                  = map fst (map_to_list (strs d))).
  { unfold keyspace. rewrite Hhash, map_to_list_empty, filter_app.
    rewrite (filter_all _ (map fst (map_to_list (strs d)))); [apply app_nil_r|].
    intros k Hk. apply in_map_iff in Hk as ([k' v] & <- & Hkv).
    apply list_elem_of_In, elem_of_map_to_list in Hkv.
    destruct (Hsk _ _ Hkv) as (q & _ & -> & _). apply keys_match_getKey, HP. }
  assert (Hres : result (PlainManager.load_all unmarshal m) d =
            decode_values unmarshal (map (fun k => strs d !! k) (map fst (map_to_list (strs d))))).
  { unfold result, PlainManager.load_all. rewrite run_bind, run_call. cbn [exec fst snd label]. rewrite Hup.
    cbn [fst snd check]. rewrite Hkeys, run_bind, run_call. cbn [exec fst snd label]. rewrite Hup.
    destruct (map fst (map_to_list (strs d))) eqn:Hnil; [|reflexivity].
    exfalso. apply (f_equal length) in Hnil. rewrite length_map, length_map_to_list, Hsize in Hnil.
    destruct created; [contradiction|discriminate]. }
  destruct (decode_values_all unmarshal (map (fun k => strs d !! k) (map fst (map_to_list (strs d)))))
    as (l & Hl & Hlen & Hin).
  { intros x Hx. apply in_map_iff in Hx as (k & <- & Hk).
    apply in_map_iff in Hk as ([k' v] & <- & Hkv).
    apply list_elem_of_In, elem_of_map_to_list in Hkv. exists v. split; [exact Hkv|].
    destruct (Hsk _ _ Hkv) as (q & Hq & _ & ->). destruct (Hsc q Hq) as (_ & Hrtq).
    by eexists. }
  rewrite Hl in Hres.
  exists l.
  assert (Hmem : forall q, In q l <-> In q created).
  { intros q. rewrite Hin. split.
    - intros (v & Hv & Hvq). apply in_map_iff in Hv as (k & Hk & _).
      destruct (Hsk _ _ Hk) as (q' & Hq' & _ & ->). destruct (Hsc q' Hq') as (_ & Hrtq).
      rewrite Hrtq in Hvq. injection Hvq as <-. exact Hq'.
    - intros Hq. destruct (Hsc q Hq) as (Hkq & Hrtq). exists (marshal q). split; [|exact Hrtq].
      apply in_map_iff. exists (PlainManager.getKey m (GetID q)). split; [exact Hkq|].
      apply in_map_iff. exists (PlainManager.getKey m (GetID q), marshal q). split; [reflexivity|].
      apply list_elem_of_In, elem_of_map_to_list. exact Hkq. }
  assert (HlenE : length l = length created)
    by (rewrite Hlen, !length_map, length_map_to_list; exact Hsize).
  assert (Hndc : NoDup created) by (apply NoDup_ListNoDup, (List.NoDup_map_inv GetID), NoDup_ListNoDup, Hnd).
  assert (Hndl : NoDup l).
  { apply NoDup_ListNoDup. apply (List.NoDup_incl_NoDup (l := created));
      [apply NoDup_ListNoDup, Hndc | lia | intros q Hq; apply Hmem, Hq]. }
  split; [|split].
  - intros r. exact Hres.
  - apply NoDup_Permutation; [exact Hndl | exact Hndc|]. intros q. rewrite !list_elem_of_In. apply Hmem.
  - intros limit Hlim. unfold result, PlainManager.GetAll. rewrite run_bind.
    unfold result in Hres. destruct (run (PlainManager.load_all unmarshal m) d) as [[o d'] t].
    cbn in Hres. subst o. cbn. apply getall_page_whole. lia.
Qed.

Lemma PlainManager_scan_after_creates_witness :
  let m := PlainManager.NewRedisManager "plain:" in
  no_glob_chars (keyPrefix m) = true /\ find_policies <> [] /\
  Forall (fun p => flat_unmarshal (flat_marshal p) = Some p) find_policies /\
  exists l,
    (forall r, result (PlainManager.FindRequestCandidates flat_unmarshal m r)
                 (fst (plain_create_all flat_marshal m find_policies empty_db)) = Ok l) /\
    Permutation l (snd (plain_create_all flat_marshal m find_policies empty_db)) /\
    (forall limit, (Z.of_nat (length l) < limit < 2 ^ 63)%Z ->
       result (PlainManager.GetAll flat_unmarshal m limit 0) (fst (plain_create_all flat_marshal m find_policies empty_db)) = Ok l).
Proof.
  intros m.
  assert (H : Forall (fun p => flat_unmarshal (flat_marshal p) = Some p) find_policies)
    by (repeat constructor).
  split; [reflexivity|]. split; [discriminate|]. split; [exact H|].
  exact (PlainManager_scan_after_creates flat_marshal flat_unmarshal m find_policies
           eq_refl ltac:(discriminate) H).
Defined.

(** [Create] of the HSETNX manager tests [wasKeySet] before the error: when
    Redis is unreachable the failed HSETNX is reported as "Policy exists",
    and nothing is written. *)
Theorem HashManager_Create_unavailable_reports_exists marshal m p d :
  down d = true ->
  run (HashManager.Create marshal m p) d =
    (Err redisPolicyExists, d, [OHSetNX (HashManager.redisPoliciesKey m) (GetID p) (marshal p)]).
Proof.
  intros Hdn. unfold HashManager.Create. rewrite run_bind, run_call. cbn [exec fst snd label].
  rewrite Hdn. reflexivity.
Qed.

Lemma HashManager_Create_unavailable_reports_exists_witness :
  down (mkDb ∅ ∅ true) = true /\
  run (HashManager.Create flat_marshal create_manager policy_a) (mkDb ∅ ∅ true) =
    (Err redisPolicyExists, mkDb ∅ ∅ true,
     [OHSetNX (HashManager.redisPoliciesKey create_manager) (GetID policy_a) (flat_marshal policy_a)]).
Proof.
  assert (H : down (mkDb ∅ ∅ true) = true) by reflexivity.
  split; [exact H|].
  exact (HashManager_Create_unavailable_reports_exists flat_marshal create_manager policy_a _ H).
Defined.
